(** * openScope command parser: a shallow embedding of
    [CommandParser.js], [Command.js], [CommandDefinition.js] and
    [systemCommandMap.js], with the properties of their specification.

    JavaScript values are a small inductive type, a thrown exception is the
    [Throw] case of a result type, and an object literal used as a dictionary
    is an association list in insertion order (the order [_findKey] walks).
    Strings are ASCII strings: [toLowerCase] is modelled on the letters A-Z. *)

From Stdlib Require Import String Ascii List Bool ZArith Lia DecimalString.
Import ListNotations.
Open Scope string_scope.
Open Scope list_scope.

(** ** JavaScript values and exceptions *)

(** The values that flow through the parser. Numbers are the integer-valued
    ones; [VArray] is a JavaScript array. *)
#[warnings="-register-all"]
Inductive value : Type :=
  | VUndefined
  | VNull
  | VBoolean (b : bool)
  | VNumber (z : Z)
  | VString (s : string)
  | VArray (xs : list value).

(** [typeof v] *)
Definition typeof (v : value) : string :=
  match v with
  | VUndefined => "undefined"
  | VNull => "object"
  | VBoolean _ => "boolean"
  | VNumber _ => "number"
  | VString _ => "string"
  | VArray _ => "object"
  end.

(** lodash [_isString], on primitive values. *)
Definition _isString (v : value) : bool :=
  match v with
  | VString _ => true
  | _ => false
  end.

(** The ways a [TypeError] arises in the parser: the explicit [throw] of
    [CommandParser.parse], whose message ends in the [typeof] of the value it
    received, and the ones the runtime raises when a property of [undefined]
    is read, an absent field is called, or a value that is not iterable is
    destructured. *)
Inductive type_error : Type :=
  | ExpectsString (received : string)
  | PropertyOfUndefined (prop : string)
  | NotAFunction (prop : string)
  | NotIterable.

(** A thrown exception: a [TypeError], or whatever an argument parser or
    validator throws (class name and message). *)
Inductive exn : Type :=
  | TypeError (e : type_error)
  | Thrown (name message : string).

(** The [name] property of the exception object. *)
Definition exn_name (e : exn) : string :=
  match e with
  | TypeError _ => "TypeError"
  | Thrown n _ => n
  end.

Inductive result (A : Type) : Type :=
  | Ok (a : A)
  | Throw (e : exn).
Arguments Ok {A} a.
Arguments Throw {A} e.

Definition bind {A B : Type} (r : result A) (k : A -> result B) : result B :=
  match r with
  | Ok a => k a
  | Throw e => Throw e
  end.

Notation "x <- r ;; k" := (bind r (fun x => k))
  (at level 61, r at next level, right associativity).
Notation "' p <- r ;; k" := (bind r (fun x => let 'p := x in k))
  (at level 61, p pattern, r at next level, right associativity).

(** A JavaScript function of one argument. *)
Definition fn : Type := value -> result value.

(** ** Strings: [toLowerCase] and [split(' ')] *)

Definition lower_ascii (c : ascii) : ascii :=
  let n := nat_of_ascii c in
  if (65 <=? n)%nat && (n <=? 90)%nat then ascii_of_nat (n + 32) else c.

(** [s.toLowerCase()] *)
Fixpoint toLowerCase (s : string) : string :=
  match s with
  | EmptyString => EmptyString
  | String c s' => String (lower_ascii c) (toLowerCase s')
  end.

(** The separator of [CommandParser.js]. *)
Definition COMMAND_ARGS_SEPARATOR : ascii := " "%char.

(** [s.split(sep)] for a one-character separator: the pieces between the
    separators, empty pieces included, so the result is never empty. *)
Fixpoint split (sep : ascii) (s : string) : list string :=
  match s with
  | EmptyString => [EmptyString]
  | String c s' =>
      if Ascii.eqb c sep then EmptyString :: split sep s'
      else match split sep s' with
           | t :: ts => String c t :: ts
           | [] => [String c EmptyString]
           end
  end.

(** [array[i]]: the element, or [undefined] out of range. *)
Definition index (xs : list value) (i : nat) : value :=
  nth i xs VUndefined.

(** [v[i]] on any value: an array element, a character of a string,
    [undefined] on a number or a boolean, a [TypeError] on [undefined] and
    [null]. *)
Definition get_index (v : value) (i : nat) : result value :=
  match v with
  | VArray xs => Ok (index xs i)
  | VString s =>
      Ok (match String.get i s with
          | Some c => VString (String c EmptyString)
          | None => VUndefined
          end)
  | VUndefined | VNull =>
      Throw (TypeError (PropertyOfUndefined (NilZero.string_of_uint (Nat.to_uint i))))
  | VBoolean _ | VNumber _ => Ok VUndefined
  end.

(** [v.length > 0]: [length] is read from an array or a string, is
    [undefined] (so the comparison is false) on a number or a boolean, and
    reading it from [undefined] or [null] throws. *)
Definition length_gt_0 (v : value) : result bool :=
  match v with
  | VArray xs => Ok (0 <? List.length xs)%nat
  | VString s => Ok (0 <? String.length s)%nat
  | VUndefined | VNull => Throw (TypeError (PropertyOfUndefined "length"))
  | VBoolean _ | VNumber _ => Ok false
  end.

(** [const [a, b] = v]: the first two elements of an array or characters of a
    string; anything else is not iterable. *)
Definition destructure_pair (v : value) : result (value * value) :=
  match v with
  | VArray xs => Ok (index xs 0, index xs 1)
  | VString _ => a <- get_index v 0 ;; b <- get_index v 1 ;; Ok (a, b)
  | _ => Throw (TypeError NotIterable)
  end.

(** The string a value becomes when it is used as a property key. *)
Fixpoint ToString (v : value) : string :=
  match v with
  | VUndefined => "undefined"
  | VNull => "null"
  | VBoolean b => if b then "true" else "false"
  | VNumber z => NilZero.string_of_int (Z.to_int z)
  | VString s => s
  | VArray xs =>
      String.concat ","
        (map (fun x => match x with
                       | VUndefined | VNull => EmptyString
                       | _ => ToString x
                       end) xs)
  end.

(** lodash [_tail]: everything but the first element. *)
Definition _tail {A : Type} (xs : list A) : list A := tl xs.

(** ** Command definitions and registries *)

(** One entry of a command map. A field the object literal does not have is
    [None]: reading it gives [undefined]. *)
Record command_definition : Type := {
  aliases : option (list string);
  functionName : option string;
  validate : option fn;
  parse : option fn
}.

(** An object literal used as a dictionary, its entries in the order they are
    written. An object enumerates its keys in that order when they are
    distinct and none is integer-like ([literal_order] below); the command
    maps are such objects. *)
Definition registry : Type := list (string * command_definition).

Fixpoint own_property (o : registry) (key : string) : option command_definition :=
  match o with
  | [] => None
  | (k, d) :: o' => if String.eqb k key then Some d else own_property o' key
  end.

(** The property names every object literal inherits from
    [Object.prototype]. *)
Definition Object_prototype : list string :=
  ["constructor"; "__defineGetter__"; "__defineSetter__"; "hasOwnProperty";
   "__lookupGetter__"; "__lookupSetter__"; "isPrototypeOf";
   "propertyIsEnumerable"; "toString"; "valueOf"; "__proto__";
   "toLocaleString"].

Definition inherited (key : string) : bool :=
  existsb (String.eqb key) Object_prototype.

(** [key in o]: an own property or an inherited one. *)
Definition has_property (o : registry) (key : value) : bool :=
  match own_property o (ToString key) with
  | Some _ => true
  | None => inherited (ToString key)
  end.

(** What [o[key]] is: an entry of the map, a member of [Object.prototype]
    (which has no [parse] and no [validate] field), or [undefined]. *)
Inductive property : Type :=
  | Own (d : command_definition)
  | Inherited
  | Missing.

Definition get_property (o : registry) (key : value) : property :=
  match own_property o (ToString key) with
  | Some d => Own d
  | None => if inherited (ToString key) then Inherited else Missing
  end.

(** [o[key].parse(arg)] and [o[key].validate(arg)] *)
Definition call_field (field : command_definition -> option fn) (prop : string)
    (p : property) (arg : value) : result value :=
  match p with
  | Own d =>
      match field d with
      | Some f => f arg
      | None => Throw (TypeError (NotAFunction prop))
      end
  | Inherited => Throw (TypeError (NotAFunction prop))
  | Missing => Throw (TypeError (PropertyOfUndefined prop))
  end.

Definition call_parse : property -> value -> result value :=
  call_field parse "parse".
Definition call_validate : property -> value -> result value :=
  call_field validate "validate".

(** lodash [_findKey]: the first own key, in the order of the list, whose
    value satisfies the predicate; [undefined] when there is none. An
    exception of the predicate ends the search. *)
Fixpoint _findKey {A : Type} (o : list (string * A)) (predicate : A -> result bool)
    : result value :=
  match o with
  | [] => Ok VUndefined
  | (k, v) :: o' =>
      b <- predicate v ;;
      if b then Ok (VString k) else _findKey o' predicate
  end.

(** [array.indexOf(v)] on an array of strings: the first position holding a
    string strictly equal to [v], or -1. *)
Fixpoint indexOf (xs : list string) (v : value) : Z :=
  match xs with
  | [] => (-1)%Z
  | x :: xs' =>
      match v with
      | VString s => if String.eqb x s then 0%Z
                     else let i := indexOf xs' v in
                          if (i =? -1)%Z then (-1)%Z else (i + 1)%Z
      | _ => (-1)%Z
      end
  end.

(** The functions the command maps import from files outside this
    development: the argument validators and parsers, the unit converter, and
    the [noop] of [definitions/utils]. *)
Record ArgumentFunctions : Type := {
  zeroArgumentsValidator : fn;
  singleArgumentValidator : fn;
  zeroOrOneArgumentValidator : fn;
  altitudeValidator : fn;
  fixValidator : fn;
  headingValidator : fn;
  holdValidator : fn;
  squawkValidator : fn;
  optionalAltitudeValidator : fn;
  crossingValidator : fn;
  altitudeParser : fn;
  headingParser : fn;
  holdParser : fn;
  timewarpParser : fn;
  optionalAltitudeParser : fn;
  crossingParser : fn;
  convertStringToNumber : fn;
  utils_noop : fn
}.

(** ** [CommandDefinition.js] *)

Module CommandDefinition.

(** [const noop = (args) => args] *)
Definition noop : fn := fun args => Ok args.

Section Maps.
Variable F : ArgumentFunctions.

(** The commands that can be transmitted to an aircraft. *)
Definition AIRCRAFT_COMMAND_MAP : registry :=
  [
    ("abort",
     {| aliases := Some ["abort"];
        functionName := Some "runAbort";
        validate := Some (zeroArgumentsValidator F);
        parse := Some noop |});
    ("altitude",
     {| aliases := Some ["a"; "altitude"; "c"; "climb"; "d"; "descend"];
        functionName := Some "runAltitude";
        validate := Some (altitudeValidator F);
        parse := Some (altitudeParser F) |});
    ("cancelHold",
     {| aliases := Some ["exithold"; "cancelhold"; "continue"; "nohold"; "xh"];
        functionName := Some "runCancelHoldingPattern";
        validate := Some (zeroOrOneArgumentValidator F);
        parse := Some noop |});
    ("clearedAsFiled",
     {| aliases := Some ["caf"; "clearedAsFiled"];
        functionName := Some "runClearedAsFiled";
        validate := Some (zeroArgumentsValidator F);
        parse := Some noop |});
    ("climbViaSid",
     {| aliases := Some ["climbViaSid"; "cvs"];
        functionName := Some "runClimbViaSID";
        validate := Some (optionalAltitudeValidator F);
        parse := Some (optionalAltitudeParser F) |});
    ("cross",
     {| aliases := Some ["cross"; "cr"; "x"];
        functionName := Some "runCross";
        validate := Some (crossingValidator F);
        parse := Some (crossingParser F) |});
    ("delete",
     {| aliases := Some ["del"; "delete"; "kill"];
        functionName := Some "runDelete";
        validate := Some (zeroArgumentsValidator F);
        parse := Some noop |});
    ("descendViaStar",
     {| aliases := Some ["descendViaStar"; "dvs"];
        functionName := Some "runDescendViaStar";
        validate := Some (optionalAltitudeValidator F);
        parse := Some (optionalAltitudeParser F) |});
    ("direct",
     {| aliases := Some ["dct"; "direct"; "pd"];
        functionName := Some "runDirect";
        validate := Some (singleArgumentValidator F);
        parse := Some noop |});
    ("expectArrivalRunway",
     {| aliases := Some ["e"];
        functionName := Some "runExpectArrivalRunway";
        validate := Some (singleArgumentValidator F);
        parse := Some noop |});
    ("fix",
     {| aliases := Some ["f"; "fix"; "track"];
        functionName := Some "runFix";
        validate := Some (fixValidator F);
        parse := Some noop |});
    ("flyPresentHeading",
     {| aliases := Some ["fph"];
        functionName := Some "runFlyPresentHeading";
        validate := Some (zeroArgumentsValidator F);
        parse := Some noop |});
    ("heading",
     {| aliases := Some ["fh"; "h"; "heading"; "t"; "turn"];
        functionName := Some "runHeading";
        validate := Some (headingValidator F);
        parse := Some (headingParser F) |});
    ("hold",
     {| aliases := Some ["hold"];
        functionName := Some "runHold";
        validate := Some (holdValidator F);
        parse := Some (holdParser F) |});
    ("ils",
     {| aliases := Some ["*"; "i"; "ils"];
        functionName := Some "runIls";
        validate := Some (singleArgumentValidator F);
        parse := Some (fun args => a0 <- get_index args 0 ;; Ok (VArray [VNull; a0])) |});
    ("land",
     {| aliases := Some ["land"];
        functionName := Some "runLand";
        validate := Some (zeroOrOneArgumentValidator F);
        parse := Some noop |});
    ("moveDataBlock",
     {| aliases := Some ["`"];
        functionName := Some "runMoveDataBlock";
        validate := Some (singleArgumentValidator F);
        parse := Some noop |});
    ("reroute",
     {| aliases := Some ["reroute"; "rr"];
        functionName := Some "runReroute";
        validate := Some (singleArgumentValidator F);
        parse := Some noop |});
    ("route",
     {| aliases := Some ["route"];
        functionName := Some "runRoute";
        validate := Some (singleArgumentValidator F);
        parse := Some noop |});
    ("sayAltitude",
     {| aliases := Some ["sa"];
        functionName := Some "runSayAltitude";
        validate := Some (zeroArgumentsValidator F);
        parse := Some noop |});
    ("sayAssignedAltitude",
     {| aliases := Some ["saa"];
        functionName := Some "runSayAssignedAltitude";
        validate := Some (zeroArgumentsValidator F);
        parse := Some noop |});
    ("sayAssignedHeading",
     {| aliases := Some ["sah"];
        functionName := Some "runSayAssignedHeading";
        validate := Some (zeroArgumentsValidator F);
        parse := Some noop |});
    ("sayAssignedSpeed",
     {| aliases := Some ["sas"];
        functionName := Some "runSayAssignedSpeed";
        validate := Some (zeroArgumentsValidator F);
        parse := Some noop |});
    ("sayHeading",
     {| aliases := Some ["sh"];
        functionName := Some "runSayHeading";
        validate := Some (zeroArgumentsValidator F);
        parse := Some noop |});
    ("sayIndicatedAirspeed",
     {| aliases := Some ["si"];
        functionName := Some "runSayIndicatedAirspeed";
        validate := Some (zeroArgumentsValidator F);
        parse := Some noop |});
    ("sayRoute",
     {| aliases := Some ["sr"];
        functionName := Some "runSayRoute";
        validate := Some (zeroArgumentsValidator F);
        parse := Some noop |});
    ("sid",
     {| aliases := Some ["sid"];
        functionName := Some "runSID";
        validate := Some (singleArgumentValidator F);
        parse := Some noop |});
    ("speed",
     {| aliases := Some ["-"; "+"; "slow"; "sp"; "speed"];
        functionName := Some "runSpeed";
        validate := Some (singleArgumentValidator F);
        parse := Some (fun arg => n <- convertStringToNumber F arg ;; Ok (VArray [n])) |});
    ("squawk",
     {| aliases := Some ["sq"; "squawk"];
        functionName := Some "runSquawk";
        validate := Some (squawkValidator F);
        parse := Some noop |});
    ("star",
     {| aliases := Some ["star"];
        functionName := Some "runSTAR";
        validate := Some (singleArgumentValidator F);
        parse := Some noop |});
    ("takeoff",
     {| aliases := Some ["cto"; "to"; "takeoff"];
        functionName := Some "runTakeoff";
        validate := Some (zeroArgumentsValidator F);
        parse := Some noop |});
    ("taxi",
     {| aliases := Some ["taxi"; "w"; "wait"];
        functionName := Some "runTaxi";
        validate := Some (zeroOrOneArgumentValidator F);
        parse := Some noop |})
  ].

(** The commands that control the simulation. No entry has an [aliases]
    field, and [transmit] is the empty object. *)
Definition SYSTEM_COMMAND_MAP : registry :=
  [
    ("airac",
     {| aliases := None;
        functionName := None;
        validate := Some (zeroArgumentsValidator F);
        parse := Some noop |});
    ("airport",
     {| aliases := None;
        functionName := None;
        validate := Some (singleArgumentValidator F);
        parse := Some noop |});
    ("auto",
     {| aliases := None;
        functionName := None;
        validate := Some (zeroArgumentsValidator F);
        parse := Some noop |});
    ("clear",
     {| aliases := None;
        functionName := None;
        validate := Some (zeroArgumentsValidator F);
        parse := Some noop |});
    ("debug",
     {| aliases := None;
        functionName := None;
        validate := Some (zeroArgumentsValidator F);
        parse := Some noop |});
    ("pause",
     {| aliases := None;
        functionName := None;
        validate := Some (zeroArgumentsValidator F);
        parse := Some noop |});
    ("rate",
     {| aliases := None;
        functionName := None;
        validate := Some (singleArgumentValidator F);
        parse := Some (fun args => n <- convertStringToNumber F args ;; Ok (VArray [n])) |});
    ("timewarp",
     {| aliases := None;
        functionName := None;
        validate := Some (zeroOrOneArgumentValidator F);
        parse := Some (timewarpParser F) |});
    ("transmit",
     {| aliases := None;
        functionName := None;
        validate := None;
        parse := None |});
    ("tutorial",
     {| aliases := None;
        functionName := None;
        validate := Some (zeroArgumentsValidator F);
        parse := Some noop |})
  ].

End Maps.

(** [aliasToRootCommand(where, commandAlias)]: [_findKey] with the predicate
    [command.aliases.indexOf(commandAlias) !== -1]. Reading [indexOf] from an
    absent [aliases] field throws. *)
Definition aliasToRootCommand (where_ : registry) (commandAlias : value)
    : result value :=
  _findKey where_
    (fun command =>
       match aliases command with
       | Some al => Ok (negb (indexOf al commandAlias =? -1)%Z)
       | None => Throw (TypeError (PropertyOfUndefined "indexOf"))
       end).

End CommandDefinition.

(** ** [definitions/systemCommand/systemCommandMap.js] *)

Module SystemCommandMap.

Section Maps.
Variable F : ArgumentFunctions.

(** The system commands of the [definitions] directory: those of
    [CommandDefinition.js] and two more. *)
Definition SYSTEM_COMMAND_MAP : registry :=
  [
    ("airac",
     {| aliases := None;
        functionName := None;
        validate := Some (zeroArgumentsValidator F);
        parse := Some (utils_noop F) |});
    ("airport",
     {| aliases := None;
        functionName := None;
        validate := Some (singleArgumentValidator F);
        parse := Some (utils_noop F) |});
    ("auto",
     {| aliases := None;
        functionName := None;
        validate := Some (zeroArgumentsValidator F);
        parse := Some (utils_noop F) |});
    ("clear",
     {| aliases := None;
        functionName := None;
        validate := Some (zeroArgumentsValidator F);
        parse := Some (utils_noop F) |});
    ("debug",
     {| aliases := None;
        functionName := None;
        validate := Some (zeroArgumentsValidator F);
        parse := Some (utils_noop F) |});
    ("pause",
     {| aliases := None;
        functionName := None;
        validate := Some (zeroArgumentsValidator F);
        parse := Some (utils_noop F) |});
    ("rate",
     {| aliases := None;
        functionName := None;
        validate := Some (singleArgumentValidator F);
        parse := Some (fun args => n <- convertStringToNumber F args ;; Ok (VArray [n])) |});
    ("timewarp",
     {| aliases := None;
        functionName := None;
        validate := Some (zeroOrOneArgumentValidator F);
        parse := Some (timewarpParser F) |});
    ("transmit",
     {| aliases := None;
        functionName := None;
        validate := None;
        parse := None |});
    ("tutorial",
     {| aliases := None;
        functionName := None;
        validate := Some (zeroArgumentsValidator F);
        parse := Some (utils_noop F) |});
    ("moveDataBlock",
     {| aliases := None;
        functionName := None;
        validate := Some (singleArgumentValidator F);
        parse := Some (utils_noop F) |});
    ("`",
     {| aliases := None;
        functionName := None;
        validate := Some (singleArgumentValidator F);
        parse := Some (fun args => n <- convertStringToNumber F args ;; Ok (VArray [n])) |})
  ].

(** [isSystemCommand(cmd)]: [cmd in SYSTEM_COMMAND_MAP] *)
Definition isSystemCommand (cmd : value) : bool :=
  has_property SYSTEM_COMMAND_MAP cmd.

(** The ten-entry copy of the same map kept next to it. *)
Definition SYSTEM_COMMAND_MAP_base : registry :=
  [
    ("airac",
     {| aliases := None;
        functionName := None;
        validate := Some (zeroArgumentsValidator F);
        parse := Some (utils_noop F) |});
    ("airport",
     {| aliases := None;
        functionName := None;
        validate := Some (singleArgumentValidator F);
        parse := Some (utils_noop F) |});
    ("auto",
     {| aliases := None;
        functionName := None;
        validate := Some (zeroArgumentsValidator F);
        parse := Some (utils_noop F) |});
    ("clear",
     {| aliases := None;
        functionName := None;
        validate := Some (zeroArgumentsValidator F);
        parse := Some (utils_noop F) |});
    ("debug",
     {| aliases := None;
        functionName := None;
        validate := Some (zeroArgumentsValidator F);
        parse := Some (utils_noop F) |});
    ("pause",
     {| aliases := None;
        functionName := None;
        validate := Some (zeroArgumentsValidator F);
        parse := Some (utils_noop F) |});
    ("rate",
     {| aliases := None;
        functionName := None;
        validate := Some (singleArgumentValidator F);
        parse := Some (fun args => n <- convertStringToNumber F args ;; Ok (VArray [n])) |});
    ("timewarp",
     {| aliases := None;
        functionName := None;
        validate := Some (zeroOrOneArgumentValidator F);
        parse := Some (timewarpParser F) |});
    ("transmit",
     {| aliases := None;
        functionName := None;
        validate := None;
        parse := None |});
    ("tutorial",
     {| aliases := None;
        functionName := None;
        validate := Some (zeroArgumentsValidator F);
        parse := Some (utils_noop F) |})
  ].

End Maps.

End SystemCommandMap.

(** ** [Command.js] *)

(** [new Command(name, commandType, callsign, args)]: the constructor stores
    its four arguments. *)
Record Command : Type := {
  name : value;
  commandType : value;
  callsign : value;
  args : value
}.

(** [[...v]]: the elements an array iterates, the characters of a string;
    any other value is not iterable. *)
Definition spread (v : value) : result (list value) :=
  match v with
  | VArray xs => Ok xs
  | VString s =>
      Ok (map (fun c => VString (String c EmptyString)) (list_ascii_of_string s))
  | _ => Throw (TypeError NotIterable)
  end.

(** The getter [nameAndArgs]: [[this.name, ...this.args]] *)
Definition nameAndArgs (c : Command) : result value :=
  xs <- spread (args c) ;; Ok (VArray (name c :: xs)).

(** ** [CommandParser.js] *)

Module CommandParser.
Import CommandDefinition.

(** How one pass through the body of a [while] loop ends: at the end of the
    body, with the new value of the loop variable, or in a [return]. *)
Inductive completion (R : Type) : Type :=
  | Continue (tail : value)
  | Return (r : R).
Arguments Continue {R} tail.
Arguments Return {R} r.

(** [while (tail.length > 0) { body }] followed by the end of the function,
    where falling off the end returns [fallthrough]. The loop is run for at
    most [fuel] tests of its condition; [None] is an exhausted budget. *)
Fixpoint while_tail_nonempty {R : Type} (fuel : nat)
    (body : value -> result (completion R)) (fallthrough : R) (tail : value)
    : option (result R) :=
  match fuel with
  | O => None
  | S fuel' =>
      match length_gt_0 tail with
      | Throw e => Some (Throw e)
      | Ok false => Some (Ok fallthrough)
      | Ok true =>
          match body tail with
          | Throw e => Some (Throw e)
          | Ok (Return r) => Some (Ok r)
          | Ok (Continue tail') =>
              while_tail_nonempty fuel' body fallthrough tail'
          end
      end
  end.

(** [rawInput.toLowerCase().split(COMMAND_ARGS_SEPARATOR)] *)
Definition tokens_of (rawInput : string) : list value :=
  map VString (split COMMAND_ARGS_SEPARATOR (toLowerCase rawInput)).

Section Parser.
Variable F : ArgumentFunctions.

(** [_isSystemCommand(token)]: [token in SYSTEM_COMMAND_MAP] *)
Definition _isSystemCommand (token : value) : bool :=
  has_property (SYSTEM_COMMAND_MAP F) token.

(** [_parseSystemCommand(tokens)] *)
Definition _parseSystemCommand (tokens : list value) : result Command :=
  let commandName := index tokens 0 in
  let argTokens := _tail tokens in
  rootCmd <- aliasToRootCommand (SYSTEM_COMMAND_MAP F) commandName ;;
  parsedArgs <-
    call_parse (get_property (SYSTEM_COMMAND_MAP F) rootCmd) (VArray argTokens) ;;
  validatedArgs <-
    call_validate (get_property (SYSTEM_COMMAND_MAP F) rootCmd) parsedArgs ;;
  Ok {| name := rootCmd; commandType := VString "system";
        callsign := VString ""; args := validatedArgs |}.

(** The body of the loop of [_parseAircraftCommand]. Its last statement is
    [return new Command(...)], so the assignment [tail = tmp] before it is
    never read and no pass ends in [Continue]. *)
Definition _parseAircraftCommand_body (callsign : value) (tail : value)
    : result (completion (option Command)) :=
  commandName <- get_index tail 0 ;;
  rootCmd <- aliasToRootCommand (AIRCRAFT_COMMAND_MAP F) commandName ;;
  parsed <- call_parse (get_property (AIRCRAFT_COMMAND_MAP F) rootCmd) tail ;;
  '(parsedArgs, tmp) <- destructure_pair parsed ;;
  validatedArgs <-
    call_validate (get_property (AIRCRAFT_COMMAND_MAP F) rootCmd) parsedArgs ;;
  Ok (Return (Some {| name := rootCmd; commandType := VString "aircraft";
                      callsign := callsign; args := validatedArgs |})).

(** [_parseAircraftCommand(tokens)]: the function has no [return] after the
    loop, so it returns [undefined] ([None]) when the loop ends. *)
Definition _parseAircraftCommand (fuel : nat) (tokens : list value)
    : option (result (option Command)) :=
  let callsign := index tokens 0 in
  let tail := VArray (_tail tokens) in
  while_tail_nonempty fuel (_parseAircraftCommand_body callsign) None tail.

(** [parse(rawInput)]: the result is a [Command], or [undefined] ([None]).
    Past the guard [rawInput] is a string, which [ToString] leaves as it
    is. *)
Definition parse (fuel : nat) (rawInput : value)
    : option (result (option Command)) :=
  if negb (_isString rawInput)
  then Some (Throw (TypeError (ExpectsString (typeof rawInput))))
  else
    let tokens := tokens_of (ToString rawInput) in
    let callsignOrSystemCommand := index tokens 0 in
    if _isSystemCommand callsignOrSystemCommand
    then Some (c <- _parseSystemCommand tokens ;; Ok (Some c))
    else _parseAircraftCommand fuel tokens.

End Parser.

(** The Command records a call produced: none when it threw, returned
    [undefined] or did not finish. *)
Definition yielded (r : option (result (option Command))) : list Command :=
  match r with
  | Some (Ok (Some c)) => [c]
  | _ => []
  end.

End CommandParser.

(** ** A sample set of argument functions

    The argument validators and parsers are not part of this development; the
    theorems below hold for any of them. To run the parser on concrete lines
    this sample follows the contract of the specification: a validator
    returns the arguments it accepts, an aircraft argument parser returns the
    pair of its arguments and the tokens it did not consume (here it consumes
    the command token and one argument), and the number converter reads a
    decimal numeral. *)

Fixpoint decimal_digits (s : string) (acc : Z) : option Z :=
  match s with
  | EmptyString => Some acc
  | String c s' =>
      let n := nat_of_ascii c in
      if (48 <=? n)%nat && (n <=? 57)%nat
      then decimal_digits s' (10 * acc + Z.of_nat (n - 48))%Z
      else None
  end.

Definition sample_convertStringToNumber : fn := fun v =>
  match v with
  | VString (String c s) =>
      match decimal_digits (String c s) 0 with
      | Some z => Ok (VNumber z)
      | None => Throw (Thrown "Error" "not a number")
      end
  | _ => Throw (Thrown "Error" "not a number")
  end.

Definition sample_validator : fn := fun parsedArgs => Ok parsedArgs.

Definition sample_parser : fn := fun tokens =>
  match tokens with
  | VArray (_ :: a :: rest) => Ok (VArray [VArray [a]; VArray rest])
  | _ => Throw (Thrown "Error" "an argument is missing")
  end.

Definition sample_timewarpParser : fn := fun args =>
  match args with
  | VArray [] => Ok (VArray [VNumber 1])
  | VArray (a :: _) => n <- sample_convertStringToNumber a ;; Ok (VArray [n])
  | _ => Throw (Thrown "Error" "not an argument list")
  end.

Definition sample_functions : ArgumentFunctions := {|
  zeroArgumentsValidator := sample_validator;
  singleArgumentValidator := sample_validator;
  zeroOrOneArgumentValidator := sample_validator;
  altitudeValidator := sample_validator;
  fixValidator := sample_validator;
  headingValidator := sample_validator;
  holdValidator := sample_validator;
  squawkValidator := sample_validator;
  optionalAltitudeValidator := sample_validator;
  crossingValidator := sample_validator;
  altitudeParser := sample_parser;
  headingParser := sample_parser;
  holdParser := sample_parser;
  timewarpParser := sample_timewarpParser;
  optionalAltitudeParser := sample_parser;
  crossingParser := sample_parser;
  convertStringToNumber := sample_convertStringToNumber;
  utils_noop := fun args => Ok args
|}.

(** ** Predicates of the specification *)

(** The raw line has two spaces in a row somewhere. *)
Definition consecutive_spaces (s : string) : Prop :=
  exists a b : string, s = (a ++ "  " ++ b)%string.

(** [token] is listed in the [aliases] of the entry under [key]. *)
Definition alias_of (o : registry) (key token : string) : Prop :=
  exists d al, In (key, d) o /\ aliases d = Some al /\ In token al.

(** All (alias, key) pairs of a registry, in order. *)
Definition alias_pairs (o : registry) : list (string * string) :=
  flat_map
    (fun kd =>
       match aliases (snd kd) with
       | Some al => map (fun a => (a, fst kd)) al
       | None => []
       end) o.

(** No alias is paired with two different keys. *)
Definition disjoint_aliasesb (o : registry) : bool :=
  let ps := alias_pairs o in
  forallb
    (fun p =>
       forallb
         (fun q => implb (String.eqb (fst p) (fst q))
                         (String.eqb (snd p) (snd q))) ps) ps.

(** How often a character occurs in a string. *)
Fixpoint count_char (c : ascii) (s : string) : nat :=
  match s with
  | EmptyString => 0
  | String c' s' => (if Ascii.eqb c' c then 1 else 0) + count_char c s'
  end.

(** The keys of a registry, in insertion order. *)
Definition keys (o : registry) : list string := map fst o.

(** A non-empty string of decimal digits. Every integer-like property key
    (["0"], ["7"], ["42"]) is one. *)
Definition all_digits (s : string) : bool :=
  match s with
  | EmptyString => false
  | _ => forallb (fun c => (48 <=? nat_of_ascii c)%nat && (nat_of_ascii c <=? 57)%nat)
                 (list_ascii_of_string s)
  end.

(** The list is an object literal as the object enumerates it: no key is
    written twice (a repeated key would overwrite the earlier entry) and no
    key is integer-like (such keys are enumerated first, in ascending
    order, wherever they are written). *)
Definition literal_order (o : registry) : Prop :=
  NoDup (keys o) /\ Forall (fun k => all_digits k = false) (keys o).

(** The command maps of the repository. *)
Definition registries (F : ArgumentFunctions) : list registry :=
  [ CommandDefinition.AIRCRAFT_COMMAND_MAP F;
    CommandDefinition.SYSTEM_COMMAND_MAP F;
    SystemCommandMap.SYSTEM_COMMAND_MAP F;
    SystemCommandMap.SYSTEM_COMMAND_MAP_base F ].

(** The system command maps among them. *)
Definition system_registries (F : ArgumentFunctions) : list registry :=
  [ CommandDefinition.SYSTEM_COMMAND_MAP F;
    SystemCommandMap.SYSTEM_COMMAND_MAP F;
    SystemCommandMap.SYSTEM_COMMAND_MAP_base F ].

(** Every entry of the registry lists its aliases. *)
Definition lists_aliases (o : registry) : Prop :=
  forall k d, In (k, d) o -> aliases d <> None.

Import CommandDefinition.

(** * Properties *)

(** ** Tokens *)

Section Tokens.
Import CommandParser.

Lemma split_not_nil (sep : ascii) (s : string) : split sep s <> [].
Proof.
  induction s as [|c s IH]; simpl; [discriminate|].
  destruct (Ascii.eqb c sep); [discriminate|].
  destruct (split sep s); discriminate.
Qed.

(** Splitting around one separator splits both sides. *)
Lemma split_app_sep (sep : ascii) (a b : string) :
  split sep (a ++ String sep b)%string = split sep a ++ split sep b.
Proof.
  induction a as [|c a IH]; simpl.
  - now rewrite Ascii.eqb_refl.
  - destruct (Ascii.eqb c sep); rewrite IH; [reflexivity|].
    pose proof (split_not_nil sep a) as Hne.
    destruct (split sep a); [contradiction|reflexivity].
Qed.

Lemma toLowerCase_app (a b : string) :
  toLowerCase (a ++ b)%string = (toLowerCase a ++ toLowerCase b)%string.
Proof.
  induction a as [|c a IH]; simpl; [reflexivity|now rewrite IH].
Qed.

Lemma tokens_of_not_nil (s : string) : tokens_of s <> [].
Proof.
  unfold tokens_of. intros H. apply map_eq_nil in H.
  exact (split_not_nil _ _ H).
Qed.


End Tokens.

(** ** The parser *)

Section ParserProperties.
Import CommandParser.

Section ParserFacts.
Variable F : ArgumentFunctions.

Lemma _isString_true (v : value) :
  _isString v = true <-> exists s, v = VString s.
Proof.
  split.
  - destruct v; simpl; try discriminate. intros _. now exists s.
  - intros [s ->]. reflexivity.
Qed.

Lemma parse_string (fuel : nat) (s : string) :
  parse F fuel (VString s)
  = (if _isSystemCommand F (index (tokens_of s) 0)
     then Some (c <- _parseSystemCommand F (tokens_of s) ;; Ok (Some c))
     else _parseAircraftCommand F fuel (tokens_of s)).
Proof. reflexivity. Qed.

(** A pass through the loop body throws or returns a record: it never ends
    in [Continue]. *)
Lemma loop_body_returns (callsign tail : value) :
  (exists e, _parseAircraftCommand_body F callsign tail = Throw e)
  \/ (exists c, _parseAircraftCommand_body F callsign tail = Ok (Return (Some c))).
Proof.
  unfold _parseAircraftCommand_body.
  destruct (get_index tail 0) as [commandName|e]; simpl; [|left; now exists e].
  destruct (aliasToRootCommand _ commandName) as [rootCmd|e]; simpl;
    [|left; now exists e].
  destruct (call_parse _ tail) as [parsed|e]; simpl; [|left; now exists e].
  destruct (destructure_pair parsed) as [[parsedArgs tmp]|e]; simpl;
    [|left; now exists e].
  destruct (call_validate _ parsedArgs) as [validatedArgs|e]; simpl;
    [|left; now exists e].
  right. eexists. reflexivity.
Qed.

(** So one test of the loop condition is all the loop needs. *)
Lemma _parseAircraftCommand_fuel (fuel : nat) (tokens : list value) :
  _parseAircraftCommand F (S fuel) tokens = _parseAircraftCommand F 1 tokens.
Proof.
  unfold _parseAircraftCommand. simpl.
  destruct (_tail tokens) as [|t ts]; simpl; [reflexivity|].
  destruct (loop_body_returns (index tokens 0) (VArray (t :: ts)))
    as [[e ->]|[c ->]]; reflexivity.
Qed.

Lemma parse_fuel (fuel : nat) (rawInput : value) :
  parse F (S fuel) rawInput = parse F 1 rawInput.
Proof.
  destruct rawInput; try reflexivity. rewrite !parse_string.
  destruct (_isSystemCommand F _); [reflexivity|].
  apply _parseAircraftCommand_fuel.
Qed.

(** Every call with a budget of one pass or more finishes. *)
Lemma parse_total (fuel : nat) (rawInput : value) :
  exists r, parse F (S fuel) rawInput = Some r.
Proof.
  rewrite parse_fuel.
  destruct rawInput; try (eexists; reflexivity). rewrite parse_string.
  destruct (_isSystemCommand F _); [eexists; reflexivity|].
  unfold _parseAircraftCommand. simpl.
  destruct (_tail (tokens_of s)) as [|t ts]; simpl; [eexists; reflexivity|].
  destruct (loop_body_returns (index (tokens_of s) 0) (VArray (t :: ts)))
    as [[e ->]|[c ->]]; eexists; reflexivity.
Qed.

(** The result of [parse] depends on the line through its tokens only. *)
Lemma parse_tokens_of (fuel : nat) (s1 s2 : string) :
  tokens_of s1 = tokens_of s2 ->
  parse F fuel (VString s1) = parse F fuel (VString s2).
Proof.
  intros H. rewrite !parse_string. now rewrite H.
Qed.

End ParserFacts.

(** C4. A value that is not a string makes [parse] throw its [TypeError],
    whatever else the value is: no token is computed for it. A string passes
    the check and is parsed from its tokens. *)
Theorem parse_rejects_non_string (F : ArgumentFunctions) (fuel : nat) (v : value) :
  if _isString v
  then exists s, v = VString s /\
       parse F fuel v =
         (if _isSystemCommand F (index (tokens_of s) 0)
          then Some (c <- _parseSystemCommand F (tokens_of s) ;; Ok (Some c))
          else _parseAircraftCommand F fuel (tokens_of s))
  else parse F fuel v = Some (Throw (TypeError (ExpectsString (typeof v))))
       /\ exn_name (TypeError (ExpectsString (typeof v))) = "TypeError".
Proof.
  destruct v; simpl; try (split; reflexivity).
  exists s. split; reflexivity.
Qed.

(** The empty token of ["AA777  fh 030"] is the token the resolver is asked
    about: it is no alias, and the line fails. *)
Example double_space_line (F : ArgumentFunctions) (fuel : nat) :
  aliasToRootCommand (AIRCRAFT_COMMAND_MAP F) (VString "") = Ok VUndefined
  /\ parse F (S fuel) (VString "AA777  fh 030")
     = Some (Throw (TypeError (PropertyOfUndefined "parse"))).
Proof.
  split; [reflexivity|]. rewrite parse_fuel. reflexivity.
Qed.

(** C9. The upper-case and the lower-case line have the same tokens, so
    [parse] gives the same result for both: the record of [heading] for
    [aa777] whenever the heading parser and validator accept the tail. *)
Theorem parse_case_insensitive (F : ArgumentFunctions) (fuel : nat) :
  parse F fuel (VString "AA777 FH 030") = parse F fuel (VString "aa777 fh 030")
  /\ parse F (S fuel) (VString "aa777 fh 030")
     = Some (parsed <- headingParser F (VArray [VString "fh"; VString "030"]) ;;
             '(parsedArgs, _) <- destructure_pair parsed ;;
             validatedArgs <- headingValidator F parsedArgs ;;
             Ok (Some {| name := VString "heading";
                         commandType := VString "aircraft";
                         callsign := VString "aa777";
                         args := validatedArgs |})).
Proof.
  split; [apply parse_tokens_of; reflexivity|].
  rewrite parse_fuel.
  cbv [parse tokens_of]. simpl.
  unfold _parseAircraftCommand, _parseAircraftCommand_body. simpl.
  unfold call_parse, call_validate, call_field. simpl.
  destruct (headingParser F _) as [parsed|e]; simpl; [|reflexivity].
  destruct (destructure_pair parsed) as [[parsedArgs tmp]|e]; simpl;
    [|reflexivity].
  destruct (headingValidator F parsedArgs); reflexivity.
Qed.

End ParserProperties.

(** ** The resolver *)

Section Resolver.

Lemma indexOf_lower_bound (al : list string) (v : value) :
  (-1 <= indexOf al v)%Z.
Proof.
  induction al as [|x al IH]; simpl; [lia|].
  destruct v; try lia.
  destruct (String.eqb x s); [lia|].
  destruct (indexOf al (VString s) =? -1)%Z; lia.
Qed.

Lemma indexOf_not_found (al : list string) (s : string) :
  (indexOf al (VString s) =? -1)%Z = true <-> ~ In s al.
Proof.
  induction al as [|x al IH]; simpl.
  - split; [intros _ []|reflexivity].
  - destruct (String.eqb_spec x s) as [->|Hne].
    + split; [discriminate|]. intros H. exfalso. apply H. now left.
    + destruct (indexOf al (VString s) =? -1)%Z eqn:E.
      * split; [|reflexivity]. intros _ [H|H]; [contradiction|].
        now apply IH.
      * split.
        -- intros H. apply Z.eqb_eq in H.
           pose proof (indexOf_lower_bound al (VString s)). lia.
        -- intros H. exfalso.
           assert (Hal : ~ In s al) by (intros Hin; apply H; now right).
           apply IH in Hal. discriminate.
Qed.

Lemma indexOf_found (al : list string) (s : string) :
  negb (indexOf al (VString s) =? -1)%Z = true <-> In s al.
Proof.
  rewrite negb_true_iff. split.
  - intros H. destruct (in_dec string_dec s al) as [Hin|Hout]; [exact Hin|].
    apply indexOf_not_found in Hout. congruence.
  - intros Hin. destruct (indexOf al (VString s) =? -1)%Z eqn:E; [|reflexivity].
    apply indexOf_not_found in E. contradiction.
Qed.

(** A key the resolver returns is a key of the registry that lists the
    token among its aliases. *)
Lemma aliasToRootCommand_sound (o : registry) (token key : string) :
  aliasToRootCommand o (VString token) = Ok (VString key) ->
  alias_of o key token.
Proof.
  unfold aliasToRootCommand.
  induction o as [|[k d] o IH]; simpl; [discriminate|].
  destruct (aliases d) as [al|] eqn:Hal; simpl; [|discriminate].
  destruct (negb (indexOf al (VString token) =? -1)%Z) eqn:E.
  - intros [= <-]. exists d, al. split; [now left|]. split; [exact Hal|].
    now apply indexOf_found.
  - intros H. destruct (IH H) as (d' & al' & Hin & Ha & Ht).
    exists d', al'. split; [now right|]. now split.
Qed.

(** In a registry whose entries all list their aliases, the resolver finds a
    key for every token that is an alias, and answers [undefined] exactly
    when the token is an alias of no entry. *)
Lemma aliasToRootCommand_complete (o : registry) (token key : string) :
  lists_aliases o ->
  alias_of o key token ->
  exists key', aliasToRootCommand o (VString token) = Ok (VString key').
Proof.
  unfold aliasToRootCommand, lists_aliases.
  induction o as [|[k d] o IH]; intros Hl (d' & al' & Hin & Ha & Ht);
    [destruct Hin|]. simpl.
  destruct (aliases d) as [al|] eqn:Hal;
    [|exfalso; apply (Hl k d); [now left|exact Hal]]. simpl.
  destruct (negb (indexOf al (VString token) =? -1)%Z) eqn:E;
    [now exists k|].
  destruct Hin as [[= <- <-]|Hin].
  - rewrite Hal in Ha. injection Ha as <-.
    apply indexOf_found in Ht. congruence.
  - apply IH.
    + intros k0 d0 H0. apply (Hl k0 d0). now right.
    + now exists d', al'.
Qed.

Lemma aliasToRootCommand_undefined (o : registry) (token : string) :
  lists_aliases o ->
  (forall key, ~ alias_of o key token) ->
  aliasToRootCommand o (VString token) = Ok VUndefined.
Proof.
  unfold aliasToRootCommand, lists_aliases.
  induction o as [|[k d] o IH]; intros Hl Hno; [reflexivity|]. simpl.
  destruct (aliases d) as [al|] eqn:Hal;
    [|exfalso; apply (Hl k d); [now left|exact Hal]]. simpl.
  destruct (negb (indexOf al (VString token) =? -1)%Z) eqn:E.
  - exfalso. apply (Hno k). exists d, al. split; [now left|].
    split; [exact Hal|]. now apply indexOf_found.
  - apply IH.
    + intros k0 d0 H0. apply (Hl k0 d0). now right.
    + intros key (d' & al' & Hin & Ha & Ht). apply (Hno key).
      exists d', al'. split; [now right|]. now split.
Qed.


Lemma alias_of_pairs (o : registry) (key token : string) :
  alias_of o key token -> In (token, key) (alias_pairs o).
Proof.
  intros (d & al & Hin & Ha & Ht). unfold alias_pairs.
  apply in_flat_map. exists (key, d). split; [exact Hin|]. simpl.
  rewrite Ha. apply in_map_iff. now exists token.
Qed.

Lemma disjoint_aliasesb_sound (o : registry) :
  disjoint_aliasesb o = true ->
  forall key1 key2 token,
    alias_of o key1 token -> alias_of o key2 token -> key1 = key2.
Proof.
  unfold disjoint_aliasesb. intros H key1 key2 token H1 H2.
  apply alias_of_pairs in H1, H2.
  rewrite forallb_forall in H. specialize (H _ H1).
  rewrite forallb_forall in H. specialize (H _ H2). simpl in H.
  rewrite String.eqb_refl in H. simpl in H. now apply String.eqb_eq.
Qed.

End Resolver.

Lemma aircraft_map_lists_aliases (F : ArgumentFunctions) :
  lists_aliases (AIRCRAFT_COMMAND_MAP F).
Proof.
  intros k d Hin. simpl in Hin.
  repeat (destruct Hin as [[= <- <-]|Hin]; [discriminate|]). destruct Hin.
Qed.

Lemma registries_disjoint_aliasesb (F : ArgumentFunctions) (o : registry) :
  In o (registries F) -> disjoint_aliasesb o = true.
Proof.
  intros Ho. simpl in Ho.
  repeat (destruct Ho as [<-|Ho]; [vm_compute; reflexivity|]). destruct Ho.
Qed.

(** C7. In each command map, a token listed among the aliases of two entries
    is listed under one and the same key. *)
Theorem alias_sets_pairwise_disjoint
    (F : ArgumentFunctions) (o : registry) (key1 key2 token : string) :
  In o (registries F) ->
  alias_of o key1 token -> alias_of o key2 token -> key1 = key2.
Proof.
  intros Ho. apply disjoint_aliasesb_sound.
  now apply (registries_disjoint_aliasesb F).
Qed.

Lemma alias_sets_pairwise_disjoint_witness :
  In (AIRCRAFT_COMMAND_MAP sample_functions) (registries sample_functions)
  /\ alias_of (AIRCRAFT_COMMAND_MAP sample_functions) "heading" "fh"
  /\ alias_of (AIRCRAFT_COMMAND_MAP sample_functions) "heading" "fh"
  /\ "heading" = "heading".
Proof.
  assert (Ho : In (AIRCRAFT_COMMAND_MAP sample_functions)
                  (registries sample_functions)) by (left; reflexivity).
  assert (Ha : alias_of (AIRCRAFT_COMMAND_MAP sample_functions) "heading" "fh").
  { eexists. eexists. split; [|split].
    - simpl. do 12 right. left. reflexivity.
    - reflexivity.
    - simpl. left. reflexivity. }
  split; [exact Ho|]. split; [exact Ha|]. split; [exact Ha|].
  exact (alias_sets_pairwise_disjoint sample_functions _ "heading" "heading"
           "fh" Ho Ha Ha).
Defined.

(** The keys of each map are distinct, as the keys of an object are. *)
Lemma registry_keys_distinct (F : ArgumentFunctions) (o : registry) :
  In o (registries F) -> NoDup (map fst o).
Proof.
  intros Ho. simpl in Ho.
  repeat (destruct Ho as [<-|Ho];
          [simpl; repeat (constructor; [simpl; intuition discriminate|]);
           constructor|]).
  destruct Ho.
Qed.

(** On the aircraft map the resolver is exact: the key of the one entry that
    lists the token, [undefined] when no entry lists it. *)
Lemma aircraft_resolver_exact (F : ArgumentFunctions) (token : string) :
  (forall key, alias_of (AIRCRAFT_COMMAND_MAP F) key token ->
     aliasToRootCommand (AIRCRAFT_COMMAND_MAP F) (VString token)
     = Ok (VString key))
  /\ ((forall key, ~ alias_of (AIRCRAFT_COMMAND_MAP F) key token) ->
     aliasToRootCommand (AIRCRAFT_COMMAND_MAP F) (VString token)
     = Ok VUndefined).
Proof.
  split.
  - intros key Hk.
    destruct (aliasToRootCommand_complete _ _ _
                (aircraft_map_lists_aliases F) Hk) as [key' Hr].
    rewrite Hr. do 2 f_equal.
    apply (disjoint_aliasesb_sound (AIRCRAFT_COMMAND_MAP F)) with (token := token).
    + apply (registries_disjoint_aliasesb F). now left.
    + now apply aliasToRootCommand_sound.
    + exact Hk.
  - apply aliasToRootCommand_undefined, aircraft_map_lists_aliases.
Qed.

(** C6. On the system map the resolver returns neither a key nor
    [undefined]: the first entry it visits, [airac], has no [aliases], and
    reading [indexOf] from it throws, for every token and in each of the
    system maps. *)
Theorem system_resolver_throws (F : ArgumentFunctions) (commandAlias : value) :
  Forall
    (fun o => aliasToRootCommand o commandAlias
              = Throw (TypeError (PropertyOfUndefined "indexOf")))
    (system_registries F)
  /\ own_property (SYSTEM_COMMAND_MAP F) "timewarp" <> None.
Proof.
  split; [repeat constructor|discriminate].
Qed.

(** C8. [transmit] is the empty object in each system map: its [validate]
    and [parse] fields are absent, and calling either throws. *)
Theorem transmit_has_no_validate_nor_parse (F : ArgumentFunctions) (arg : value) :
  Forall
    (fun o =>
       own_property o "transmit"
       = Some {| aliases := None; functionName := None;
                 validate := None; parse := None |}
       /\ call_validate (get_property o (VString "transmit")) arg
          = Throw (TypeError (NotAFunction "validate"))
       /\ call_parse (get_property o (VString "transmit")) arg
          = Throw (TypeError (NotAFunction "parse")))
    (system_registries F).
Proof.
  repeat constructor.
Qed.

(** Every other entry of every map has both fields. *)
Lemma other_entries_have_validate_and_parse
    (F : ArgumentFunctions) (o : registry) (k : string) (d : command_definition) :
  In o (registries F) -> In (k, d) o -> k <> "transmit" ->
  validate d <> None /\ parse d <> None.
Proof.
  intros Ho Hin Hk. simpl in Ho.
  repeat (destruct Ho as [<-|Ho];
    [simpl in Hin;
     repeat (destruct Hin as [[= <- <-]|Hin];
             [try (split; discriminate); now contradiction Hk|]);
     destruct Hin|]).
  destruct Ho.
Qed.

(** ** Lines *)

Section Lines.
Import CommandParser.

(** C2. ["timewarp 50"] is classified as a system command, and resolving
    [timewarp] in the system map throws before any argument is parsed: the
    line yields no record. *)
Theorem timewarp_line_throws (F : ArgumentFunctions) (fuel : nat) :
  tokens_of "timewarp 50" = [VString "timewarp"; VString "50"]
  /\ _isSystemCommand F (VString "timewarp") = true
  /\ parse F fuel (VString "timewarp 50")
     = Some (Throw (TypeError (PropertyOfUndefined "indexOf")))
  /\ yielded (parse F fuel (VString "timewarp 50")) = [].
Proof.
  repeat split.
Qed.

(** C10. ["constructor"] is one token and no key of the system map, yet
    [in] finds it on [Object.prototype]: the line takes the system path and
    throws instead of returning [undefined]. *)
Theorem inherited_name_is_taken_for_system_command
    (F : ArgumentFunctions) (fuel : nat) :
  tokens_of "constructor" = [VString "constructor"]
  /\ own_property (SYSTEM_COMMAND_MAP F) "constructor" = None
  /\ _isSystemCommand F (VString "constructor") = true
  /\ parse F fuel (VString "constructor")
     = Some (Throw (TypeError (PropertyOfUndefined "indexOf"))).
Proof.
  repeat split.
Qed.

(** A single token that [in] does not find, neither in the system map nor
    on [Object.prototype], is a bare callsign: [parse] returns
    [undefined]. *)
Lemma bare_callsign_returns_undefined
    (F : ArgumentFunctions) (fuel : nat) (s token : string) :
  tokens_of s = [VString token] ->
  own_property (SYSTEM_COMMAND_MAP F) token = None ->
  inherited token = false ->
  parse F (S fuel) (VString s) = Some (Ok None).
Proof.
  intros Ht Hown Hinh. rewrite parse_string, Ht.
  unfold _isSystemCommand, has_property. simpl ToString. simpl index.
  rewrite Hown, Hinh. reflexivity.
Qed.

Lemma bare_callsign_returns_undefined_witness :
  tokens_of "AA777" = [VString "aa777"]
  /\ parse sample_functions 1 (VString "AA777") = Some (Ok None).
Proof.
  split; [reflexivity|].
  apply (bare_callsign_returns_undefined sample_functions 0 "AA777" "aa777");
    reflexivity.
Defined.

(** What [parse] does with ["AA777 fh 030 sp 250"]: the call sign is the
    lower-cased first token, [fh] resolves to [heading], the heading parser
    receives the whole tail, and the record built from its answer is
    returned from inside the loop. *)
Lemma chained_line_run (F : ArgumentFunctions) (fuel : nat) :
  parse F (S fuel) (VString "AA777 fh 030 sp 250")
  = Some (parsed <- headingParser F
                      (VArray [VString "fh"; VString "030";
                               VString "sp"; VString "250"]) ;;
          '(parsedArgs, _) <- destructure_pair parsed ;;
          validatedArgs <- headingValidator F parsedArgs ;;
          Ok (Some {| name := VString "heading";
                      commandType := VString "aircraft";
                      callsign := VString "aa777";
                      args := validatedArgs |})).
Proof.
  rewrite parse_fuel.
  cbv [parse tokens_of]. simpl.
  unfold _parseAircraftCommand, _parseAircraftCommand_body. simpl.
  unfold call_parse, call_validate, call_field. simpl.
  destruct (headingParser F _) as [parsed|e]; simpl; [|reflexivity].
  destruct (destructure_pair parsed) as [[parsedArgs tmp]|e]; simpl;
    [|reflexivity].
  destruct (headingValidator F parsedArgs); reflexivity.
Qed.

Lemma chained_line_out_of_fuel (F : ArgumentFunctions) :
  parse F 0 (VString "AA777 fh 030 sp 250") = None.
Proof. reflexivity. Qed.

(** C1, as the code has it. In the aircraft map [fh] resolves to [heading]
    and [sp] to [speed]. The first record that [parse] yields for
    ["AA777 fh 030 sp 250"] is addressed to the lower-cased call sign
    [aa777], is named [heading], and holds what the heading validator
    returns for the first component of the heading parser's answer on the
    tail that starts at [fh]. *)
Theorem chained_line_first_record
    (F : ArgumentFunctions) (fuel : nat) (c : Command) :
  hd_error (yielded (parse F fuel (VString "AA777 fh 030 sp 250"))) = Some c ->
  aliasToRootCommand (AIRCRAFT_COMMAND_MAP F) (VString "fh")
  = Ok (VString "heading")
  /\ aliasToRootCommand (AIRCRAFT_COMMAND_MAP F) (VString "sp")
     = Ok (VString "speed")
  /\ name c = VString "heading"
  /\ commandType c = VString "aircraft"
  /\ callsign c = VString "aa777"
  /\ exists parsed parsedArgs tmp,
       headingParser F (VArray [VString "fh"; VString "030";
                                VString "sp"; VString "250"]) = Ok parsed
       /\ destructure_pair parsed = Ok (parsedArgs, tmp)
       /\ headingValidator F parsedArgs = Ok (args c).
Proof.
  destruct fuel as [|fuel];
    [rewrite chained_line_out_of_fuel; discriminate|].
  rewrite chained_line_run.
  destruct (headingParser F _) as [parsed|e]; simpl; [|discriminate].
  destruct (destructure_pair parsed) as [[parsedArgs tmp]|e] eqn:Hd; simpl;
    [|discriminate].
  destruct (headingValidator F parsedArgs) as [validatedArgs|e] eqn:Hv; simpl;
    [|discriminate].
  intros [= <-]. simpl. repeat split.
  exists parsed, parsedArgs, tmp. repeat split; assumption.
Qed.

Lemma chained_line_first_record_witness :
  let c := {| name := VString "heading";
              commandType := VString "aircraft";
              callsign := VString "aa777";
              args := VArray [VString "030"] |} in
  hd_error (yielded (parse sample_functions 1 (VString "AA777 fh 030 sp 250")))
  = Some c
  /\ callsign c = VString "aa777".
Proof.
  intros c.
  assert (H : hd_error (yielded (parse sample_functions 1
                                   (VString "AA777 fh 030 sp 250"))) = Some c)
    by reflexivity.
  split; [exact H|].
  exact (proj1 (proj2 (proj2 (proj2 (proj2
    (chained_line_first_record sample_functions 1 c H)))))).
Defined.

(** The line does not yield two records, and no record it yields is
    addressed to ["AA777"]. *)
Lemma chained_line_not_two_records :
  yielded (parse sample_functions 1 (VString "AA777 fh 030 sp 250"))
  = [ {| name := VString "heading";
         commandType := VString "aircraft";
         callsign := VString "aa777";
         args := VArray [VString "030"] |} ]
  /\ ~ (exists F fuel c1 c2,
          yielded (parse F fuel (VString "AA777 fh 030 sp 250")) = [c1; c2])
  /\ ~ (exists F fuel c,
          In c (yielded (parse F fuel (VString "AA777 fh 030 sp 250")))
          /\ callsign c = VString "AA777").
Proof.
  split; [reflexivity|]. split.
  - intros (F & fuel & c1 & c2 & H).
    destruct fuel as [|fuel]; [discriminate H|].
    rewrite chained_line_run in H.
    destruct (headingParser F _) as [parsed|e]; simpl in H; [|discriminate].
    destruct (destructure_pair parsed) as [[parsedArgs tmp]|e]; simpl in H;
      [|discriminate].
    destruct (headingValidator F parsedArgs); discriminate.
  - intros (F & fuel & c & H & Hc).
    destruct fuel as [|fuel]; [destruct H|].
    rewrite chained_line_run in H.
    destruct (headingParser F _) as [parsed|e]; simpl in H; [|destruct H].
    destruct (destructure_pair parsed) as [[parsedArgs tmp]|e]; simpl in H;
      [|destruct H].
    destruct (headingValidator F parsedArgs); simpl in H; [|destruct H].
    destruct H as [<-|[]]. discriminate Hc.
Qed.

(** C3, as the code has it. On a line that is not a system command, a first
    sub-command token that is an alias of no aircraft command makes [parse]
    throw: the registry has no entry for [undefined], and reading its
    [parse] field is a [TypeError]. No result is returned. *)
Theorem unknown_aircraft_command_throws
    (F : ArgumentFunctions) (fuel : nat) (s : string)
    (first commandName : value) (rest : list value) :
  tokens_of s = first :: commandName :: rest ->
  _isSystemCommand F first = false ->
  aliasToRootCommand (AIRCRAFT_COMMAND_MAP F) commandName = Ok VUndefined ->
  parse F (S fuel) (VString s)
  = Some (Throw (TypeError (PropertyOfUndefined "parse")))
  /\ yielded (parse F (S fuel) (VString s)) = [].
Proof.
  intros Ht Hsys Hres.
  assert (H : parse F (S fuel) (VString s)
              = Some (Throw (TypeError (PropertyOfUndefined "parse")))).
  { rewrite parse_fuel, parse_string. rewrite Ht.
    change (index (first :: commandName :: rest) 0) with first.
    rewrite Hsys.
    unfold _parseAircraftCommand, _parseAircraftCommand_body.
    cbn -[aliasToRootCommand AIRCRAFT_COMMAND_MAP].
    rewrite Hres. reflexivity. }
  rewrite H. split; reflexivity.
Qed.

Lemma unknown_aircraft_command_throws_witness :
  tokens_of "aa777 zzz" = [VString "aa777"; VString "zzz"]
  /\ parse sample_functions 1 (VString "aa777 zzz")
     = Some (Throw (TypeError (PropertyOfUndefined "parse"))).
Proof.
  split; [reflexivity|].
  apply (unknown_aircraft_command_throws sample_functions 0 "aa777 zzz"
           (VString "aa777") (VString "zzz") []); reflexivity.
Defined.

(** The exception of such a line is a [TypeError], not an
    [UnknownCommandError]. *)
Lemma unknown_command_error_is_type_error :
  aliasToRootCommand (AIRCRAFT_COMMAND_MAP sample_functions) (VString "zzz")
  = Ok VUndefined
  /\ parse sample_functions 1 (VString "aa777 zzz")
     = Some (Throw (TypeError (PropertyOfUndefined "parse")))
  /\ exn_name (TypeError (PropertyOfUndefined "parse")) <> "UnknownCommandError"
  /\ ~ (exists F fuel e,
          parse F fuel (VString "aa777 zzz") = Some (Throw e)
          /\ exn_name e = "UnknownCommandError").
Proof.
  split; [reflexivity|]. split; [reflexivity|]. split; [discriminate|].
  intros (F & fuel & e & H & He).
  destruct fuel as [|fuel]; [discriminate H|].
  rewrite parse_fuel in H. injection H as <-. discriminate He.
Qed.

End Lines.

(** * Further properties of the code *)

(** ** The tokens of a line *)

Section TokenFacts.
Import CommandParser.

Lemma lower_ascii_idempotent (c : ascii) :
  lower_ascii (lower_ascii c) = lower_ascii c.
Proof.
  destruct c as [[] [] [] [] [] [] [] []]; reflexivity.
Qed.

Lemma lower_ascii_space (c : ascii) :
  Ascii.eqb (lower_ascii c) " " = Ascii.eqb c " ".
Proof.
  destruct c as [[] [] [] [] [] [] [] []]; reflexivity.
Qed.

Lemma toLowerCase_idempotent (s : string) :
  toLowerCase (toLowerCase s) = toLowerCase s.
Proof.
  induction s as [|c s IH]; simpl; [reflexivity|].
  now rewrite lower_ascii_idempotent, IH.
Qed.

Lemma count_char_toLowerCase (s : string) :
  count_char " " (toLowerCase s) = count_char " " s.
Proof.
  induction s as [|c s IH]; simpl; [reflexivity|].
  now rewrite lower_ascii_space, IH.
Qed.

Lemma split_length (sep : ascii) (s : string) :
  List.length (split sep s) = S (count_char sep s).
Proof.
  induction s as [|c s IH]; simpl; [reflexivity|].
  destruct (Ascii.eqb c sep); simpl; [now rewrite IH|].
  pose proof (split_not_nil sep s) as Hne.
  destruct (split sep s); [contradiction|exact IH].
Qed.

Lemma split_concat (sep : ascii) (s : string) :
  String.concat (String sep "") (split sep s) = s.
Proof.
  induction s as [|c s IH]; simpl; [reflexivity|].
  pose proof (split_not_nil sep s) as Hne.
  destruct (Ascii.eqb_spec c sep) as [->|Hc].
  - destruct (split sep s) as [|t ts]; [contradiction|].
    simpl in *. now rewrite IH.
  - destruct (split sep s) as [|t ts]; [contradiction|].
    destruct ts as [|t' ts]; simpl in *; now rewrite IH.
Qed.

Lemma split_pieces_have_no_separator (sep : ascii) (s t : string) :
  In t (split sep s) -> count_char sep t = 0.
Proof.
  revert t. induction s as [|c s IH]; simpl; intros t Ht.
  - destruct Ht as [<-|[]]. reflexivity.
  - destruct (Ascii.eqb c sep) eqn:E.
    + destruct Ht as [<-|Ht]; [reflexivity|now apply IH].
    + pose proof (split_not_nil sep s) as Hne.
      destruct (split sep s) as [|t0 ts]; [contradiction|].
      destruct Ht as [<-|Ht].
      * simpl. rewrite E. apply IH. now left.
      * apply IH. now right.
Qed.

Lemma split_pieces_lower_case (sep : ascii) (s t : string) :
  toLowerCase s = s -> In t (split sep s) -> toLowerCase t = t.
Proof.
  revert t. induction s as [|c s IH]; simpl; intros t Hs Ht.
  - destruct Ht as [<-|[]]. reflexivity.
  - injection Hs as Hc Hs.
    destruct (Ascii.eqb c sep).
    + destruct Ht as [<-|Ht]; [reflexivity|now apply IH].
    + pose proof (split_not_nil sep s) as Hne.
      destruct (split sep s) as [|t0 ts]; [contradiction|].
      destruct Ht as [<-|Ht].
      * simpl. rewrite Hc. f_equal. apply IH; [exact Hs|now left].
      * apply IH; [exact Hs|now right].
Qed.

Lemma split_without_separator (sep : ascii) (s : string) :
  count_char sep s = 0 -> split sep s = [s].
Proof.
  induction s as [|c s IH]; simpl; [reflexivity|].
  destruct (Ascii.eqb c sep); [discriminate|]. simpl. intros H.
  now rewrite (IH H).
Qed.

Lemma token_is_lower_case (s t : string) :
  In (VString t) (tokens_of s) ->
  toLowerCase t = t /\ count_char " " t = 0.
Proof.
  unfold tokens_of. intros H. apply in_map_iff in H.
  destruct H as (t' & [= ->] & Hin). split.
  - apply (split_pieces_lower_case COMMAND_ARGS_SEPARATOR (toLowerCase s));
      [apply toLowerCase_idempotent|exact Hin].
  - exact (split_pieces_have_no_separator _ _ _ Hin).
Qed.

(** X1. A line has one token more than it has spaces, and every token is a
    string: [tokens[0]] is never [undefined]. *)
Theorem token_count (s : string) :
  List.length (tokens_of s) = S (count_char " " s)
  /\ Forall (fun v => _isString v = true) (tokens_of s).
Proof.
  split.
  - unfold tokens_of. rewrite length_map, split_length.
    f_equal. apply count_char_toLowerCase.
  - unfold tokens_of. apply Forall_forall. intros v Hv.
    apply in_map_iff in Hv. destruct Hv as (t & <- & _). reflexivity.
Qed.

(** X2. Joining the tokens with single spaces gives back the lower-cased
    line: splitting loses nothing. *)
Theorem tokens_join_back (s : string) :
  String.concat " " (map ToString (tokens_of s)) = toLowerCase s.
Proof.
  unfold tokens_of. rewrite map_map. simpl. rewrite map_id.
  apply (split_concat COMMAND_ARGS_SEPARATOR).
Qed.

(** X3. No token holds a space or an upper-case letter A-Z. *)
Theorem tokens_are_lower_case_words (s t : string) :
  In (VString t) (tokens_of s) ->
  toLowerCase t = t /\ count_char " " t = 0.
Proof.
  apply token_is_lower_case.
Qed.

Lemma tokens_are_lower_case_words_witness :
  In (VString "fh") (tokens_of "AA777 FH 030")
  /\ toLowerCase "fh" = "fh" /\ count_char " " "fh" = 0.
Proof.
  assert (H : In (VString "fh") (tokens_of "AA777 FH 030"))
    by (right; left; reflexivity).
  split; [exact H|].
  exact (tokens_are_lower_case_words "AA777 FH 030" "fh" H).
Defined.

(** X4. The tokens of two pieces joined by one space are the tokens of the first
    followed by the tokens of the second. *)
Theorem tokens_of_joined_lines (a b : string) :
  tokens_of (a ++ " " ++ b)%string = tokens_of a ++ tokens_of b.
Proof.
  unfold tokens_of. rewrite toLowerCase_app. simpl toLowerCase.
  change (lower_ascii " ") with COMMAND_ARGS_SEPARATOR.
  change (String COMMAND_ARGS_SEPARATOR "" ++ toLowerCase b)%string
    with (String COMMAND_ARGS_SEPARATOR (toLowerCase b)).
  now rewrite split_app_sep, map_app.
Qed.

Lemma tokens_of_single (s : string) :
  count_char " " s = 0 -> tokens_of s = [VString (toLowerCase s)].
Proof.
  intros H. unfold tokens_of.
  rewrite split_without_separator; [reflexivity|].
  now rewrite count_char_toLowerCase.
Qed.

(** X5. A line without a space is one token, the lower-cased line; the empty
    line is the one empty token. *)
Theorem line_without_space_is_one_token (s : string) :
  count_char " " s = 0 -> tokens_of s = [VString (toLowerCase s)].
Proof.
  apply tokens_of_single.
Qed.

Lemma line_without_space_is_one_token_witness :
  count_char " " "AA777" = 0 /\ tokens_of "AA777" = [VString "aa777"].
Proof.
  split; [reflexivity|].
  exact (line_without_space_is_one_token "AA777" eq_refl).
Defined.

(** X6. Lines that differ in letter case only get the same result from
    [parse], whatever the argument functions are. *)
Theorem parse_ignores_case
    (F : ArgumentFunctions) (fuel : nat) (s1 s2 : string) :
  toLowerCase s1 = toLowerCase s2 ->
  parse F fuel (VString s1) = parse F fuel (VString s2).
Proof.
  intros H. apply parse_tokens_of. unfold tokens_of. now rewrite H.
Qed.

Lemma parse_ignores_case_witness :
  toLowerCase "AA777 Hold DUMBA" = toLowerCase "aa777 hold dumba"
  /\ parse sample_functions 1 (VString "AA777 Hold DUMBA")
     = parse sample_functions 1 (VString "aa777 hold dumba").
Proof.
  split; [reflexivity|].
  exact (parse_ignores_case sample_functions 1 "AA777 Hold DUMBA"
           "aa777 hold dumba" eq_refl).
Defined.

End TokenFacts.

(** ** The resolver on any registry *)

Section ResolverFacts.

Lemma indexOf_non_string (al : list string) (v : value) :
  _isString v = false -> indexOf al v = (-1)%Z.
Proof.
  intros Hv. destruct al as [|x al]; [reflexivity|].
  destruct v; try reflexivity. discriminate Hv.
Qed.

Lemma aliasToRootCommand_key (o : registry) (v r : value) :
  aliasToRootCommand o v = Ok r ->
  r = VUndefined \/ exists key, r = VString key /\ In key (keys o).
Proof.
  unfold aliasToRootCommand.
  induction o as [|[k d] o IH]; simpl.
  - intros [= <-]. now left.
  - destruct (aliases d) as [al|]; simpl; [|discriminate].
    destruct (negb (indexOf al v =? -1)%Z).
    + intros [= <-]. right. exists k. split; [reflexivity|now left].
    + intros H. destruct (IH H) as [->|(key & -> & Hk)]; [now left|].
      right. exists key. split; [reflexivity|now right].
Qed.


Lemma aliasToRootCommand_returns (o : registry) (v : value) :
  lists_aliases o -> exists r, aliasToRootCommand o v = Ok r.
Proof.
  unfold aliasToRootCommand, lists_aliases.
  induction o as [|[k d] o IH]; intros Hl; simpl; [now eexists|].
  destruct (aliases d) as [al|] eqn:Hal;
    [|exfalso; apply (Hl k d); [now left|exact Hal]]. simpl.
  destruct (negb (indexOf al v =? -1)%Z); [now eexists|].
  apply IH. intros k0 d0 H0. apply (Hl k0 d0). now right.
Qed.

Lemma own_property_of_entry (o : registry) (key : string) (d : command_definition) :
  NoDup (keys o) -> In (key, d) o -> own_property o key = Some d.
Proof.
  unfold keys. induction o as [|[k d0] o IH]; simpl; intros Hnd Hin;
    [destruct Hin|].
  inversion Hnd as [|? ? Hk Hnd']; subst.
  destruct Hin as [[= -> ->]|Hin].
  - now rewrite String.eqb_refl.
  - destruct (String.eqb_spec k key) as [->|Hne]; [|now apply IH].
    exfalso. apply Hk. apply in_map_iff. now exists (key, d).
Qed.

Lemma own_property_keys (o : registry) (key : string) :
  own_property o key <> None <-> In key (keys o).
Proof.
  unfold keys. induction o as [|[k d] o IH]; simpl.
  - split; [intros H; now contradiction H|intros []].
  - destruct (String.eqb_spec k key) as [->|Hne].
    + split; [intros _; now left|discriminate].
    + rewrite IH. split; [intros H; now right|].
      intros [H|H]; [contradiction|exact H].
Qed.

(** X7. What the resolver returns for a string is [undefined] or a key of the
    registry whose entry lists the string among its aliases: it never makes
    up a name. *)
Theorem resolver_returns_a_listing_key (o : registry) (token : string) (r : value) :
  aliasToRootCommand o (VString token) = Ok r ->
  r = VUndefined
  \/ exists key, r = VString key /\ In key (keys o) /\ alias_of o key token.
Proof.
  intros H. destruct (aliasToRootCommand_key _ _ _ H) as [->|(key & -> & Hk)];
    [now left|].
  right. exists key. split; [reflexivity|]. split; [exact Hk|].
  now apply aliasToRootCommand_sound.
Qed.

Lemma resolver_returns_a_listing_key_witness :
  aliasToRootCommand (AIRCRAFT_COMMAND_MAP sample_functions) (VString "cvs")
  = Ok (VString "climbViaSid")
  /\ (VString "climbViaSid" = VUndefined
      \/ exists key,
           VString "climbViaSid" = VString key
           /\ In key (keys (AIRCRAFT_COMMAND_MAP sample_functions))
           /\ alias_of (AIRCRAFT_COMMAND_MAP sample_functions) key "cvs").
Proof.
  split; [reflexivity|].
  exact (resolver_returns_a_listing_key
           (AIRCRAFT_COMMAND_MAP sample_functions) "cvs"
           (VString "climbViaSid") eq_refl).
Defined.





(** X10. On a registry whose entries all list their aliases the resolver never
    throws, and it answers [undefined] for a string exactly when no entry
    lists it. *)
Theorem resolver_on_listing_registry (o : registry) (token : string) :
  lists_aliases o ->
  (forall v, exists r, aliasToRootCommand o v = Ok r)
  /\ (aliasToRootCommand o (VString token) = Ok VUndefined
      <-> forall key, ~ alias_of o key token).
Proof.
  intros Hl. split; [intros v; now apply aliasToRootCommand_returns|].
  split.
  - intros Hu key Hk.
    destruct (aliasToRootCommand_complete _ _ _ Hl Hk) as [key' Hr].
    congruence.
  - now apply aliasToRootCommand_undefined.
Qed.

Lemma resolver_on_listing_registry_witness :
  lists_aliases (AIRCRAFT_COMMAND_MAP sample_functions)
  /\ aliasToRootCommand (AIRCRAFT_COMMAND_MAP sample_functions) (VString "zzz")
     = Ok VUndefined
  /\ forall key, ~ alias_of (AIRCRAFT_COMMAND_MAP sample_functions) key "zzz".
Proof.
  pose proof (aircraft_map_lists_aliases sample_functions) as Hl.
  split; [exact Hl|]. split; [reflexivity|].
  exact (proj1 (proj2 (resolver_on_listing_registry
                         (AIRCRAFT_COMMAND_MAP sample_functions) "zzz" Hl))
               eq_refl).
Defined.

(** X11. A token that is not a string ([undefined], the first element of an
    empty token list, say) is an alias of nothing: on such a registry the
    resolver answers [undefined]. *)
Theorem resolver_of_non_string (o : registry) (v : value) :
  lists_aliases o ->
  _isString v = false ->
  aliasToRootCommand o v = Ok VUndefined.
Proof.
  unfold aliasToRootCommand, lists_aliases. intros Hl Hv.
  induction o as [|[k d] o IH]; simpl; [reflexivity|].
  destruct (aliases d) as [al|] eqn:Hal;
    [|exfalso; apply (Hl k d); [now left|exact Hal]]. simpl.
  rewrite (indexOf_non_string al v Hv). simpl.
  apply IH. intros k0 d0 H0. apply (Hl k0 d0). now right.
Qed.

Lemma resolver_of_non_string_witness :
  lists_aliases (AIRCRAFT_COMMAND_MAP sample_functions)
  /\ aliasToRootCommand (AIRCRAFT_COMMAND_MAP sample_functions) VUndefined
     = Ok VUndefined.
Proof.
  pose proof (aircraft_map_lists_aliases sample_functions) as Hl.
  split; [exact Hl|].
  exact (resolver_of_non_string (AIRCRAFT_COMMAND_MAP sample_functions)
           VUndefined Hl eq_refl).
Defined.

(** X12. On the aircraft map the resolver returns a key exactly for the tokens
    the entry of that key lists. *)
Theorem aircraft_resolver_iff (F : ArgumentFunctions) (token key : string) :
  aliasToRootCommand (AIRCRAFT_COMMAND_MAP F) (VString token) = Ok (VString key)
  <-> alias_of (AIRCRAFT_COMMAND_MAP F) key token.
Proof.
  split; [apply aliasToRootCommand_sound|].
  apply (proj1 (aircraft_resolver_exact F token)).
Qed.

End ResolverFacts.

(** ** Aircraft lines *)

Section LineFacts.
Variable F : ArgumentFunctions.

Lemma aircraft_entry_fields (k : string) (d : command_definition) :
  In (k, d) (AIRCRAFT_COMMAND_MAP F) ->
  exists al fnm v p,
    aliases d = Some al /\ al <> [] /\ functionName d = Some fnm
    /\ validate d = Some v /\ parse d = Some p.
Proof.
  intros Hin. simpl in Hin.
  repeat (destruct Hin as [[= <- <-]|Hin];
    [do 4 eexists; split; [reflexivity|]; split; [discriminate|];
     split; [reflexivity|]; split; reflexivity|]).
  destruct Hin.
Qed.

Lemma aircraft_keys_distinct : NoDup (keys (AIRCRAFT_COMMAND_MAP F)).
Proof.
  apply (registry_keys_distinct F). now left.
Qed.

(** The one pass of the loop, for a line whose second token is listed by the
    entry [d] under [key]. *)
Lemma aircraft_line_run (fuel : nat) (s : string) (first : value)
    (cmd : string) (rest : list value) (key : string) (d : command_definition)
    (al : list string) :
  CommandParser.tokens_of s = first :: VString cmd :: rest ->
  CommandParser._isSystemCommand F first = false ->
  In (key, d) (AIRCRAFT_COMMAND_MAP F) ->
  aliases d = Some al ->
  In cmd al ->
  CommandParser.parse F (S fuel) (VString s)
  = Some (parsed <- call_parse (Own d) (VArray (VString cmd :: rest)) ;;
          '(parsedArgs, _) <- destructure_pair parsed ;;
          validatedArgs <- call_validate (Own d) parsedArgs ;;
          Ok (Some {| name := VString key;
                      commandType := VString "aircraft";
                      callsign := first;
                      args := validatedArgs |})).
Proof.
  intros Ht Hsys Hin Hal Hcmd.
  assert (Hres : aliasToRootCommand (AIRCRAFT_COMMAND_MAP F) (VString cmd)
                 = Ok (VString key)).
  { apply (proj1 (aircraft_resolver_exact F cmd)). now exists d, al. }
  assert (Hown : get_property (AIRCRAFT_COMMAND_MAP F) (VString key) = Own d).
  { unfold get_property. simpl ToString.
    now rewrite (own_property_of_entry _ _ _ aircraft_keys_distinct Hin). }
  rewrite parse_fuel, parse_string, Ht.
  change (index (first :: VString cmd :: rest) 0) with first.
  rewrite Hsys.
  unfold CommandParser._parseAircraftCommand,
    CommandParser._parseAircraftCommand_body.
  cbn -[aliasToRootCommand AIRCRAFT_COMMAND_MAP get_property
        call_parse call_validate destructure_pair].
  rewrite Hres.
  cbn -[aliasToRootCommand AIRCRAFT_COMMAND_MAP get_property
        call_parse call_validate destructure_pair].
  rewrite Hown.
  destruct (call_parse (Own d) _) as [parsed|e];
    cbn -[call_validate destructure_pair]; [|reflexivity].
  destruct (destructure_pair parsed) as [[parsedArgs tmp]|e];
    cbn -[call_validate]; [|reflexivity].
  destruct (call_validate (Own d) parsedArgs); reflexivity.
Qed.

End LineFacts.

Section LineProperties.

Lemma system_path_throws (F : ArgumentFunctions) (tokens : list value) :
  CommandParser._parseSystemCommand F tokens
  = Throw (TypeError (PropertyOfUndefined "indexOf")).
Proof. reflexivity. Qed.

Lemma heading_listed_in_sample :
  alias_of (AIRCRAFT_COMMAND_MAP sample_functions) "heading" "fh".
Proof.
  eexists. eexists. split; [|split].
  - simpl. do 12 right. left. reflexivity.
  - reflexivity.
  - simpl. left. reflexivity.
Defined.

(** X13. How an aircraft line is put together: the first token is the call sign;
    the entry that lists the second token gives the name, its parser gets
    the whole tail from that token on, and its validator gets the first
    component of what the parser returned. *)
Theorem aircraft_line_composes
    (F : ArgumentFunctions) (fuel : nat) (s : string) (first : value)
    (cmd : string) (rest : list value) (key : string) :
  CommandParser.tokens_of s = first :: VString cmd :: rest ->
  CommandParser._isSystemCommand F first = false ->
  alias_of (AIRCRAFT_COMMAND_MAP F) key cmd ->
  exists d p v,
    own_property (AIRCRAFT_COMMAND_MAP F) key = Some d
    /\ parse d = Some p /\ validate d = Some v
    /\ CommandParser.parse F (S fuel) (VString s)
       = Some (parsed <- p (VArray (VString cmd :: rest)) ;;
               '(parsedArgs, _) <- destructure_pair parsed ;;
               validatedArgs <- v parsedArgs ;;
               Ok (Some {| name := VString key;
                           commandType := VString "aircraft";
                           callsign := first;
                           args := validatedArgs |})).
Proof.
  intros Ht Hsys (d & al & Hin & Hal & Hcmd).
  destruct (aircraft_entry_fields F key d Hin)
    as (al' & fnm & v & p & _ & _ & _ & Hv & Hp).
  exists d, p, v.
  split; [exact (own_property_of_entry _ _ _ (aircraft_keys_distinct F) Hin)|].
  split; [exact Hp|]. split; [exact Hv|].
  rewrite (aircraft_line_run F fuel s first cmd rest key d al Ht Hsys Hin Hal Hcmd).
  unfold call_parse, call_validate, call_field. now rewrite Hp, Hv.
Qed.

Lemma aircraft_line_composes_witness :
  CommandParser.tokens_of "AA777 fh 030"
  = VString "aa777" :: VString "fh" :: [VString "030"]
  /\ CommandParser._isSystemCommand sample_functions (VString "aa777") = false
  /\ exists d p v,
       own_property (AIRCRAFT_COMMAND_MAP sample_functions) "heading" = Some d
       /\ parse d = Some p /\ validate d = Some v
       /\ CommandParser.parse sample_functions 1 (VString "AA777 fh 030")
          = Some (parsed <- p (VArray (VString "fh" :: [VString "030"])) ;;
                  '(parsedArgs, _) <- destructure_pair parsed ;;
                  validatedArgs <- v parsedArgs ;;
                  Ok (Some {| name := VString "heading";
                              commandType := VString "aircraft";
                              callsign := VString "aa777";
                              args := validatedArgs |})).
Proof.
  split; [reflexivity|]. split; [reflexivity|].
  exact (aircraft_line_composes sample_functions 0 "AA777 fh 030"
           (VString "aa777") "fh" [VString "030"] "heading"
           eq_refl eq_refl heading_listed_in_sample).
Defined.

(** X14. An exception of the argument parser or of the validator leaves [parse]
    as it is: the line yields no record and nothing is caught. *)
Theorem argument_errors_propagate
    (F : ArgumentFunctions) (fuel : nat) (s : string) (first : value)
    (cmd : string) (rest : list value) (key : string)
    (d : command_definition) (p v : fn) (e : exn) :
  CommandParser.tokens_of s = first :: VString cmd :: rest ->
  CommandParser._isSystemCommand F first = false ->
  alias_of (AIRCRAFT_COMMAND_MAP F) key cmd ->
  own_property (AIRCRAFT_COMMAND_MAP F) key = Some d ->
  parse d = Some p ->
  validate d = Some v ->
  (p (VArray (VString cmd :: rest)) = Throw e
   \/ exists parsed parsedArgs tmp,
        p (VArray (VString cmd :: rest)) = Ok parsed
        /\ destructure_pair parsed = Ok (parsedArgs, tmp)
        /\ v parsedArgs = Throw e) ->
  CommandParser.parse F (S fuel) (VString s) = Some (Throw e).
Proof.
  intros Ht Hsys (d' & al & Hin & Hal & Hcmd) Hown Hp Hv Herr.
  rewrite (own_property_of_entry _ _ _ (aircraft_keys_distinct F) Hin) in Hown.
  injection Hown as ->.
  rewrite (aircraft_line_run F fuel s first cmd rest key d al Ht Hsys Hin Hal Hcmd).
  unfold call_parse, call_validate, call_field. rewrite Hp, Hv.
  destruct Herr as [->|(parsed & parsedArgs & tmp & -> & Hd & He)];
    [reflexivity|].
  simpl. rewrite Hd. simpl. now rewrite He.
Qed.

Lemma argument_errors_propagate_witness :
  CommandParser.parse sample_functions 1 (VString "AA777 sp 250")
  = Some (Throw (Thrown "Error" "not a number")).
Proof.
  apply (argument_errors_propagate sample_functions 0 "AA777 sp 250"
           (VString "aa777") "sp" [VString "250"] "speed"
           {| aliases := Some ["-"; "+"; "slow"; "sp"; "speed"];
              functionName := Some "runSpeed";
              validate := Some (singleArgumentValidator sample_functions);
              parse := Some (fun arg =>
                               n <- convertStringToNumber sample_functions arg ;;
                               Ok (VArray [n])) |}
           (fun arg => n <- convertStringToNumber sample_functions arg ;;
                       Ok (VArray [n]))
           (singleArgumentValidator sample_functions)).
  - reflexivity.
  - reflexivity.
  - eexists. eexists. split; [|split].
    + simpl. do 27 right. left. reflexivity.
    + reflexivity.
    + simpl. do 3 right. left. reflexivity.
  - reflexivity.
  - reflexivity.
  - reflexivity.
  - left. reflexivity.
Defined.

(** X15. A command whose parser is [noop] gets the tail back as it is, and the
    destructuring takes its first element: the validator is called with the
    alias the user typed, not with the tokens after it. *)
Theorem pass_through_command_validates_its_alias
    (F : ArgumentFunctions) (fuel : nat) (s : string) (first : value)
    (cmd : string) (rest : list value) (key : string)
    (d : command_definition) (v : fn) :
  CommandParser.tokens_of s = first :: VString cmd :: rest ->
  CommandParser._isSystemCommand F first = false ->
  alias_of (AIRCRAFT_COMMAND_MAP F) key cmd ->
  own_property (AIRCRAFT_COMMAND_MAP F) key = Some d ->
  parse d = Some noop ->
  validate d = Some v ->
  CommandParser.parse F (S fuel) (VString s)
  = Some (validatedArgs <- v (VString cmd) ;;
          Ok (Some {| name := VString key;
                      commandType := VString "aircraft";
                      callsign := first;
                      args := validatedArgs |})).
Proof.
  intros Ht Hsys (d' & al & Hin & Hal & Hcmd) Hown Hp Hv.
  rewrite (own_property_of_entry _ _ _ (aircraft_keys_distinct F) Hin) in Hown.
  injection Hown as ->.
  rewrite (aircraft_line_run F fuel s first cmd rest key d al Ht Hsys Hin Hal Hcmd).
  unfold call_parse, call_validate, call_field. rewrite Hp, Hv. reflexivity.
Qed.

Lemma pass_through_command_validates_its_alias_witness :
  CommandParser.parse sample_functions 1 (VString "AA777 to")
  = Some (Ok (Some {| name := VString "takeoff";
                      commandType := VString "aircraft";
                      callsign := VString "aa777";
                      args := VString "to" |})).
Proof.
  apply (pass_through_command_validates_its_alias sample_functions 0
           "AA777 to" (VString "aa777") "to" [] "takeoff"
           {| aliases := Some ["cto"; "to"; "takeoff"];
              functionName := Some "runTakeoff";
              validate := Some (zeroArgumentsValidator sample_functions);
              parse := Some noop |}
           (zeroArgumentsValidator sample_functions)).
  - reflexivity.
  - reflexivity.
  - eexists. eexists. split; [|split].
    + simpl. do 30 right. left. reflexivity.
    + reflexivity.
    + simpl. right. left. reflexivity.
  - reflexivity.
  - reflexivity.
  - reflexivity.
Defined.

End LineProperties.

Section CommandProperties.

(** X16. The parser of [ils] returns [[null, args[0]]], and the destructuring
    takes its first element: whatever runway the line names, the validator
    is called with [null] and the runway is dropped. *)
Theorem ils_line_validates_null
    (F : ArgumentFunctions) (fuel : nat) (s : string) (first : value)
    (cmd : string) (rest : list value) :
  CommandParser.tokens_of s = first :: VString cmd :: rest ->
  CommandParser._isSystemCommand F first = false ->
  In cmd ["*"; "i"; "ils"] ->
  CommandParser.parse F (S fuel) (VString s)
  = Some (validatedArgs <- singleArgumentValidator F VNull ;;
          Ok (Some {| name := VString "ils";
                      commandType := VString "aircraft";
                      callsign := first;
                      args := validatedArgs |})).
Proof.
  intros Ht Hsys Hcmd.
  pose (d := {| aliases := Some ["*"; "i"; "ils"];
                functionName := Some "runIls";
                validate := Some (singleArgumentValidator F);
                parse := Some (fun args => a0 <- get_index args 0 ;;
                                           Ok (VArray [VNull; a0])) |}).
  assert (Hin : In ("ils", d) (AIRCRAFT_COMMAND_MAP F))
    by (simpl; do 14 right; left; reflexivity).
  rewrite (aircraft_line_run F fuel s first cmd rest "ils" d _
             Ht Hsys Hin eq_refl Hcmd).
  reflexivity.
Qed.

Lemma ils_line_validates_null_witness :
  CommandParser.parse sample_functions 1 (VString "AA777 ils 27l")
  = Some (Ok (Some {| name := VString "ils";
                      commandType := VString "aircraft";
                      callsign := VString "aa777";
                      args := VNull |})).
Proof.
  apply (ils_line_validates_null sample_functions 0 "AA777 ils 27l"
           (VString "aa777") "ils" [VString "27l"]).
  - reflexivity.
  - reflexivity.
  - simpl. right. right. left. reflexivity.
Defined.

(** X17. The parser of [speed] hands the number converter the whole tail, the
    alias included, not the one token after it; the validator gets the
    converter's answer. *)
Theorem speed_line_converts_the_tail
    (F : ArgumentFunctions) (fuel : nat) (s : string) (first : value)
    (cmd : string) (rest : list value) :
  CommandParser.tokens_of s = first :: VString cmd :: rest ->
  CommandParser._isSystemCommand F first = false ->
  In cmd ["-"; "+"; "slow"; "sp"; "speed"] ->
  CommandParser.parse F (S fuel) (VString s)
  = Some (n <- convertStringToNumber F (VArray (VString cmd :: rest)) ;;
          validatedArgs <- singleArgumentValidator F n ;;
          Ok (Some {| name := VString "speed";
                      commandType := VString "aircraft";
                      callsign := first;
                      args := validatedArgs |})).
Proof.
  intros Ht Hsys Hcmd.
  pose (d := {| aliases := Some ["-"; "+"; "slow"; "sp"; "speed"];
                functionName := Some "runSpeed";
                validate := Some (singleArgumentValidator F);
                parse := Some (fun arg => n <- convertStringToNumber F arg ;;
                                          Ok (VArray [n])) |}).
  assert (Hin : In ("speed", d) (AIRCRAFT_COMMAND_MAP F))
    by (simpl; do 27 right; left; reflexivity).
  rewrite (aircraft_line_run F fuel s first cmd rest "speed" d _
             Ht Hsys Hin eq_refl Hcmd).
  unfold call_parse, call_validate, call_field. simpl.
  destruct (convertStringToNumber F _); reflexivity.
Qed.

Lemma speed_line_converts_the_tail_witness :
  CommandParser.parse sample_functions 1 (VString "AA777 slow 180")
  = Some (n <- convertStringToNumber sample_functions
                 (VArray [VString "slow"; VString "180"]) ;;
          validatedArgs <- singleArgumentValidator sample_functions n ;;
          Ok (Some {| name := VString "speed";
                      commandType := VString "aircraft";
                      callsign := VString "aa777";
                      args := validatedArgs |})).
Proof.
  apply (speed_line_converts_the_tail sample_functions 0 "AA777 slow 180"
           (VString "aa777") "slow" [VString "180"]).
  - reflexivity.
  - reflexivity.
  - simpl. right. right. left. reflexivity.
Defined.

(** X18. A line whose first token [in] finds in the system map never yields a
    record: [_parseSystemCommand] throws on every token list. *)
Theorem system_line_always_throws
    (F : ArgumentFunctions) (fuel : nat) (s : string) :
  CommandParser._isSystemCommand F (index (CommandParser.tokens_of s) 0) = true ->
  CommandParser.parse F fuel (VString s)
  = Some (Throw (TypeError (PropertyOfUndefined "indexOf")))
  /\ forall tokens,
       CommandParser._parseSystemCommand F tokens
       = Throw (TypeError (PropertyOfUndefined "indexOf")).
Proof.
  intros Hsys. split; [|apply system_path_throws].
  rewrite parse_string, Hsys. reflexivity.
Qed.

Lemma system_line_always_throws_witness :
  CommandParser._isSystemCommand sample_functions
    (index (CommandParser.tokens_of "PAUSE") 0) = true
  /\ CommandParser.parse sample_functions 1 (VString "PAUSE")
     = Some (Throw (TypeError (PropertyOfUndefined "indexOf"))).
Proof.
  split; [reflexivity|].
  exact (proj1 (system_line_always_throws sample_functions 1 "PAUSE" eq_refl)).
Defined.

(** X19. The loop of [_parseAircraftCommand] never starts a second pass: no pass
    ends at the end of the body, and every call of [parse] finishes with the
    result it has after one test of the loop condition. *)
Theorem parse_finishes_in_one_pass
    (F : ArgumentFunctions) (fuel : nat) (rawInput : value) :
  (exists r, CommandParser.parse F (S fuel) rawInput = Some r
             /\ CommandParser.parse F 1 rawInput = Some r)
  /\ forall callsign tail tail',
       CommandParser._parseAircraftCommand_body F callsign tail
       <> Ok (CommandParser.Continue tail').
Proof.
  split.
  - destruct (parse_total F fuel rawInput) as [r Hr]. exists r.
    split; [exact Hr|]. now rewrite <- (parse_fuel F fuel).
  - intros callsign tail tail'.
    destruct (loop_body_returns F callsign tail) as [[e ->]|[c ->]];
      discriminate.
Qed.

(** X20. A line without a space that is not taken for a system command has no
    sub-command: [parse] returns [undefined], calling no parser. *)
Theorem line_without_subcommand_returns_undefined
    (F : ArgumentFunctions) (fuel : nat) (s : string) :
  count_char " " s = 0 ->
  CommandParser._isSystemCommand F (VString (toLowerCase s)) = false ->
  CommandParser.parse F (S fuel) (VString s) = Some (Ok None).
Proof.
  intros Hs Hsys.
  rewrite parse_string, (tokens_of_single s Hs).
  change (index [VString (toLowerCase s)] 0) with (VString (toLowerCase s)).
  rewrite Hsys. reflexivity.
Qed.

Lemma line_without_subcommand_returns_undefined_witness :
  CommandParser.parse sample_functions 1 (VString "BAW123") = Some (Ok None).
Proof.
  apply (line_without_subcommand_returns_undefined sample_functions 0 "BAW123");
    reflexivity.
Defined.

End CommandProperties.

Section Invariants.

Lemma inherited_lower_case (t : string) :
  toLowerCase t = t -> inherited t = true ->
  t = "constructor" \/ t = "__proto__".
Proof.
  intros Hl Hi. unfold inherited in Hi. apply existsb_exists in Hi.
  destruct Hi as (n & Hn & He). apply String.eqb_eq in He. subst n.
  simpl in Hn.
  repeat (destruct Hn as [<-|Hn];
          [first [now left | now right | discriminate Hl]|]).
  destruct Hn.
Qed.

(** X21. A record that [parse] yields comes from an aircraft line of two tokens
    or more: its call sign is the first token, its name a key of the
    aircraft map that lists the second token, and its type is [aircraft].
    No system record is ever yielded. *)
Theorem yielded_record_shape
    (F : ArgumentFunctions) (fuel : nat) (rawInput : value) (c : Command) :
  In c (CommandParser.yielded (CommandParser.parse F fuel rawInput)) ->
  exists s first cmd rest key,
    rawInput = VString s
    /\ CommandParser.tokens_of s = VString first :: VString cmd :: rest
    /\ commandType c = VString "aircraft"
    /\ callsign c = VString first
    /\ name c = VString key
    /\ alias_of (AIRCRAFT_COMMAND_MAP F) key cmd.
Proof.
  intros Hc.
  destruct rawInput as [| | | |s|]; try (now destruct Hc).
  destruct fuel as [|fuel].
  - rewrite parse_string in Hc.
    destruct (CommandParser._isSystemCommand F _); now destruct Hc.
  - rewrite parse_fuel, parse_string in Hc.
    destruct (CommandParser._isSystemCommand F _); [now destruct Hc|].
    unfold CommandParser.tokens_of in Hc.
    destruct (split COMMAND_ARGS_SEPARATOR (toLowerCase s)) as [|first l]
      eqn:Hs; [now destruct Hc|].
    destruct l as [|cmd rest]; [now destruct Hc|].
    exists s, first, cmd, (map VString rest).
    unfold CommandParser._parseAircraftCommand,
      CommandParser._parseAircraftCommand_body in Hc.
    cbn -[aliasToRootCommand AIRCRAFT_COMMAND_MAP get_property
          call_parse call_validate destructure_pair] in Hc.
    destruct (aliasToRootCommand (AIRCRAFT_COMMAND_MAP F) (VString cmd))
      as [r|e] eqn:Hr;
      cbn -[aliasToRootCommand AIRCRAFT_COMMAND_MAP get_property
            call_parse call_validate destructure_pair] in Hc;
      [|now destruct Hc].
    destruct (aliasToRootCommand_key _ _ _ Hr) as [->|(key & -> & _)];
      [now destruct Hc|].
    destruct (call_parse _ _) as [parsed|e];
      cbn -[call_validate destructure_pair] in Hc; [|now destruct Hc].
    destruct (destructure_pair parsed) as [[parsedArgs tmp]|e];
      cbn -[call_validate] in Hc; [|now destruct Hc].
    destruct (call_validate _ parsedArgs) as [validatedArgs|e];
      simpl in Hc; [|now destruct Hc].
    destruct Hc as [<-|[]]. exists key. simpl.
    split; [reflexivity|].
    split; [unfold CommandParser.tokens_of; now rewrite Hs|].
    repeat split. now apply aliasToRootCommand_sound.
Qed.

Lemma yielded_record_shape_witness :
  let c := {| name := VString "heading";
              commandType := VString "aircraft";
              callsign := VString "aa777";
              args := VArray [VString "030"] |} in
  In c (CommandParser.yielded
          (CommandParser.parse sample_functions 1 (VString "AA777 fh 030")))
  /\ exists s first cmd rest key,
       VString "AA777 fh 030" = VString s
       /\ CommandParser.tokens_of s = VString first :: VString cmd :: rest
       /\ commandType c = VString "aircraft"
       /\ callsign c = VString first
       /\ name c = VString key
       /\ alias_of (AIRCRAFT_COMMAND_MAP sample_functions) key cmd.
Proof.
  intros c.
  assert (H : In c (CommandParser.yielded
                      (CommandParser.parse sample_functions 1
                         (VString "AA777 fh 030"))))
    by (left; reflexivity).
  split; [exact H|].
  exact (yielded_record_shape sample_functions 1 _ c H).
Defined.

(** X22. Which first tokens send a line down the system path: the ten keys of
    the system map, and the two lower-case names every object inherits,
    [constructor] and [__proto__]. *)
Theorem system_classification
    (F : ArgumentFunctions) (s t : string) :
  index (CommandParser.tokens_of s) 0 = VString t ->
  (CommandParser._isSystemCommand F (VString t) = true
   <-> In t (keys (SYSTEM_COMMAND_MAP F))
       \/ t = "constructor" \/ t = "__proto__").
Proof.
  intros Ht.
  assert (Hl : toLowerCase t = t).
  { apply (token_is_lower_case s).
    pose proof (tokens_of_not_nil s) as Hne.
    destruct (CommandParser.tokens_of s) as [|x l]; [contradiction|].
    unfold index in Ht. simpl in Ht. subst x. now left. }
  unfold CommandParser._isSystemCommand, has_property. simpl ToString.
  split.
  - destruct (own_property (SYSTEM_COMMAND_MAP F) t) eqn:Ho.
    + intros _. left. apply own_property_keys. congruence.
    + intros Hi. right. now apply inherited_lower_case.
  - intros [Hk|[->| ->]]; [|reflexivity|reflexivity].
    apply own_property_keys in Hk.
    destruct (own_property (SYSTEM_COMMAND_MAP F) t);
      [reflexivity|now contradiction Hk].
Qed.

Lemma system_classification_witness :
  index (CommandParser.tokens_of "Timewarp 50") 0 = VString "timewarp"
  /\ CommandParser._isSystemCommand sample_functions (VString "timewarp") = true.
Proof.
  split; [reflexivity|].
  apply (system_classification sample_functions "Timewarp 50" "timewarp" eq_refl).
  left. simpl. do 7 right. left. reflexivity.
Defined.



End Invariants.

(** ** The maps and the record *)

Section MapFacts.

(** X24. Every entry of the aircraft map is complete: a non-empty alias list, a
    [functionName] that starts with [run], a validator and a parser; and no
    two entries name the same function. *)
Theorem aircraft_entries_are_complete (F : ArgumentFunctions) :
  Forall
    (fun kd =>
       exists al fnm v p,
         aliases (snd kd) = Some al /\ al <> []
         /\ functionName (snd kd) = Some fnm
         /\ String.prefix "run" fnm = true
         /\ validate (snd kd) = Some v
         /\ parse (snd kd) = Some p)
    (AIRCRAFT_COMMAND_MAP F)
  /\ NoDup (map (fun kd => functionName (snd kd)) (AIRCRAFT_COMMAND_MAP F)).
Proof.
  split.
  - repeat (constructor;
      [do 4 eexists; simpl; repeat split; try reflexivity; discriminate|]).
    constructor.
  - simpl. repeat (constructor; [simpl; intuition discriminate|]).
    constructor.
Qed.

(** X25. [isSystemCommand] of the definitions directory accepts what
    [_isSystemCommand] of the parser accepts, and the two keys only its own
    map has, [moveDataBlock] and the backquote. *)
Theorem isSystemCommand_of_definitions (F : ArgumentFunctions) (cmd : value) :
  SystemCommandMap.isSystemCommand F cmd
  = CommandParser._isSystemCommand F cmd
    || String.eqb "moveDataBlock" (ToString cmd)
    || String.eqb "`" (ToString cmd).
Proof.
  unfold SystemCommandMap.isSystemCommand, CommandParser._isSystemCommand,
    has_property.
  generalize (ToString cmd) as k. intros k.
  unfold SystemCommandMap.SYSTEM_COMMAND_MAP, SYSTEM_COMMAND_MAP.
  cbn [own_property].
  repeat match goal with
         | |- context [String.eqb ?a k] =>
             destruct (String.eqb a k); try reflexivity
         end.
  all: destruct (inherited k); reflexivity.
Qed.

(** X26. For argument lists that are arrays, [nameAndArgs] is the name followed
    by the arguments, and name and arguments can be read back from it: two
    records with the same projection have the same name and arguments. *)
Theorem nameAndArgs_determines_name_and_args
    (c1 c2 : Command) (xs1 xs2 : list value) :
  args c1 = VArray xs1 ->
  args c2 = VArray xs2 ->
  nameAndArgs c1 = Ok (VArray (name c1 :: xs1))
  /\ (nameAndArgs c1 = nameAndArgs c2 -> name c1 = name c2 /\ xs1 = xs2).
Proof.
  intros H1 H2. unfold nameAndArgs. rewrite H1, H2. simpl.
  split; [reflexivity|]. intros [= Hn Hx]. now split.
Qed.

Lemma nameAndArgs_determines_name_and_args_witness :
  let c := {| name := VString "heading";
              commandType := VString "aircraft";
              callsign := VString "aa777";
              args := VArray [VString "030"] |} in
  nameAndArgs c = Ok (VArray [VString "heading"; VString "030"]).
Proof.
  intros c.
  exact (proj1 (nameAndArgs_determines_name_and_args c c
                  [VString "030"] [VString "030"] eq_refl eq_refl)).
Defined.

End MapFacts.

(** The command maps are object literals with distinct keys, none of them
    integer-like: the lists above are in the order the objects enumerate
    their keys. *)
Lemma command_maps_literal_order (F : ArgumentFunctions) (o : registry) :
  In o (registries F) -> literal_order o.
Proof.
  intros Ho. split; [now apply (registry_keys_distinct F)|].
  simpl in Ho.
  repeat (destruct Ho as [<-|Ho]; [repeat constructor|]). destruct Ho.
Qed.

(** ** Empty tokens *)

Section EmptyTokens.
Import CommandParser.





(** On ["AA777 fh  030"] the sample heading parser takes the empty token for
    the heading. *)
Example empty_token_becomes_an_argument :
  CommandParser.parse sample_functions 1 (VString "AA777 fh  030")
  = Some (Ok (Some {| name := VString "heading";
                      commandType := VString "aircraft";
                      callsign := VString "aa777";
                      args := VArray [VString ""] |})).
Proof. reflexivity. Qed.


End EmptyTokens.
